(** * Data_Extractor_Notion: the identifier extractor and the reconciliation
    loop of [Data_Extractor.py] (read-only variant) and [Ingestor.py]
    (write-back variant), embedded from the Python source.

    Values exchanged with the remote service are the dictionaries, lists and
    strings that [response.json()] yields; they are modelled by [json].
    A Python exception is an explicit result ([Err], [Raise]); the remote
    service, the console, the progress bar and the export file are explicit
    state ([Env]). *)

From Stdlib Require Import Ascii String ZArith List Bool Lia DecimalString.
From stdpp Require Import base gmap strings list.

Local Open Scope Z_scope.
Local Open Scope nat_scope.

(** ** Values *)

(** What [json.loads] produces.  A dictionary keeps its insertion order and
    has one binding per key; [JNull] is Python's [None].  Numbers are the
    integers (no field the program reads is fractional). *)
#[warnings="-register-all"]
Inductive json : Type :=
| JNull
| JBool (b : bool)
| JNum (n : Z)
| JStr (s : string)
| JArr (items : list json)
| JObj (fields : list (string * json)).

(** The exceptions the program can raise: from a field access, from
    [response.json()] on a body that is not JSON, from [tqdm]. *)
Inductive exn : Type :=
| KeyError | TypeError | AttributeError | IndexError
| JSONDecodeError.

(** Result of a computation that has no effect but may raise. *)
Inductive Exc (A : Type) : Type :=
| Val (a : A)
| Err (x : exn).
Arguments Val {A} a.
Arguments Err {A} x.

Definition exc_bind {A B} (c : Exc A) (k : A → Exc B) : Exc B :=
  match c with
  | Val a => k a
  | Err x => Err x
  end.

Notation "'let?' x ':=' c 'in' k" := (exc_bind c (λ x, k))
  (at level 10, x name, c at level 100, k at level 200).

Fixpoint exc_map {A B} (f : A → Exc B) (l : list A) : Exc (list B) :=
  match l with
  | [] => Val []
  | a :: l' =>
      let? b := f a in
      let? bs := exc_map f l' in
      Val (b :: bs)
  end.

(** ** Python primitives on [json] *)

Fixpoint dict_lookup (k : string) (fields : list (string * json)) : option json :=
  match fields with
  | [] => None
  | (k', v) :: rest => if String.eqb k k' then Some v else dict_lookup k rest
  end.

(** [bool(j)]: the truth value used by [if j] and [a and b]. *)
Definition truthy (j : json) : bool :=
  match j with
  | JNull => false
  | JBool b => b
  | JNum n => negb (n =? 0)%Z
  | JStr s => negb (String.eqb s "")
  | JArr [] => false
  | JArr (_ :: _) => true
  | JObj [] => false
  | JObj (_ :: _) => true
  end.

(** [d.get(k, dflt)]: only a dictionary has the method. *)
Definition py_get (d : json) (k : string) (dflt : json) : Exc json :=
  match d with
  | JObj fields =>
      match dict_lookup k fields with
      | Some v => Val v
      | None => Val dflt
      end
  | _ => Err AttributeError
  end.

Definition chars_of (s : string) : list json :=
  map (λ c, JStr (String c EmptyString)) (list_ascii_of_string s).

(** Position [n] of a sequence, counted from the end when negative. *)
Definition seq_index {A} (l : list A) (n : Z) : Exc A :=
  let len := Z.of_nat (length l) in
  let i := if (n <? 0)%Z then (n + len)%Z else n in
  if (i <? 0)%Z then Err IndexError
  else match l !! Z.to_nat i with
       | Some a => Val a
       | None => Err IndexError
       end.

(** [d[k]]. *)
Definition py_getitem (d : json) (k : json) : Exc json :=
  match d with
  | JObj fields =>
      match k with
      | JStr s =>
          match dict_lookup s fields with
          | Some v => Val v
          | None => Err KeyError
          end
      | JArr _ | JObj _ => Err TypeError
      | _ => Err KeyError
      end
  | JArr items =>
      match k with
      | JNum n => seq_index items n
      | JBool b => seq_index items (if b then 1 else 0)%Z
      | _ => Err TypeError
      end
  | JStr s =>
      match k with
      | JNum n => seq_index (chars_of s) n
      | JBool b => seq_index (chars_of s) (if b then 1 else 0)%Z
      | _ => Err TypeError
      end
  | _ => Err TypeError
  end.

(** The elements a [for] loop or a comprehension visits. *)
Definition py_iter (j : json) : Exc (list json) :=
  match j with
  | JArr items => Val items
  | JObj fields => Val (map (λ kv, JStr (fst kv)) fields)
  | JStr s => Val (chars_of s)
  | _ => Err TypeError
  end.

(** [''.join(parts)]: every part must be a string. *)
Fixpoint py_join (parts : list json) : Exc string :=
  match parts with
  | [] => Val ""
  | JStr s :: rest =>
      let? t := py_join rest in
      Val (s +:+ t)
  | _ :: _ => Err TypeError
  end.

(** [''.join([part[key] for part in spans])]: the comprehension is built
    first, then joined. *)
Definition join_field (key : string) (spans : json) : Exc string :=
  let? parts := py_iter spans in
  let? texts := exc_map (λ part, py_getitem part (JStr key)) parts in
  py_join texts.

(** [s.replace(old, '')] for a one-character [old]. *)
Fixpoint remove_char (old : ascii) (s : string) : string :=
  match s with
  | EmptyString => EmptyString
  | String c s' =>
      if Ascii.eqb c old then remove_char old s' else String c (remove_char old s')
  end.

(** ** Regular expressions

    The two patterns of the program use character sets, counted repetition,
    the greedy [+], the word boundary [\b] and the end anchor [$].  A
    pattern is a sequence of items; [{n}] is written as [n] copies. *)

Inductive item : Type :=
| Lit (f : ascii → bool)     (* one character of the set *)
| Many1 (f : ascii → bool)   (* [set+], greedy *)
| Bnd                         (* [\b] *)
| End_.                       (* [$] *)

Definition in_range (lo hi : nat) (c : ascii) : bool :=
  let n := nat_of_ascii c in Nat.leb lo n && Nat.leb n hi.

(** [[a-fA-F0-9]] *)
Definition is_hex (c : ascii) : bool :=
  in_range 97 102 c || in_range 65 70 c || in_range 48 57 c.

(** [\w] on text: letters, digits and the underscore.  A character is a
    code point below 256; above 127 these are the alphanumeric code points
    of that range. *)
Definition is_word (c : ascii) : bool :=
  in_range 48 57 c || in_range 65 90 c || in_range 97 122 c
  || Nat.eqb (nat_of_ascii c) 95
  || Nat.eqb (nat_of_ascii c) 170 || in_range 178 179 c
  || Nat.eqb (nat_of_ascii c) 181 || in_range 185 186 c
  || in_range 188 190 c || in_range 192 214 c
  || in_range 216 246 c || in_range 248 255 c.

Definition is_word_opt (c : option ascii) : bool :=
  match c with
  | Some c => is_word c
  | None => false
  end.

(** [\b] between the character before and the character after. *)
Definition boundary (before after : option ascii) : bool :=
  xorb (is_word_opt before) (is_word_opt after).

(** [$]: at the end, or before a newline that ends the text. *)
Definition at_end (s : list ascii) : bool :=
  match s with
  | [] => true
  | [c] => Ascii.eqb c "010"%char
  | _ => false
  end.

(** The greedy [set+] after its first character: as many characters of the
    set as the rest of the pattern, [k], allows, the longest first; [prev]
    is the character before [s]. *)
Fixpoint many (f : ascii → bool)
    (k : option ascii → list ascii → option (list ascii))
    (prev : ascii) (s : list ascii) : option (list ascii) :=
  match s with
  | c :: s' =>
      if f c then
        match many f k c s' with
        | Some r => Some (c :: r)
        | None => k (Some prev) s
        end
      else k (Some prev) s
  | [] => k (Some prev) []
  end.

(** Match the pattern at the start of [s], [prev] being the character
    before it; the result is the matched text. *)
Fixpoint match_here (p : list item) (prev : option ascii) (s : list ascii)
  : option (list ascii) :=
  match p with
  | [] => Some []
  | Lit f :: p' =>
      match s with
      | c :: s' => if f c then cons c <$> match_here p' (Some c) s' else None
      | [] => None
      end
  | Bnd :: p' =>
      if boundary prev (head s) then match_here p' prev s else None
  | End_ :: p' =>
      if at_end s then match_here p' prev s else None
  | Many1 f :: p' =>
      match s with
      | c :: s' => if f c then cons c <$> many f (match_here p') c s' else None
      | [] => None
      end
  end.

(** [re.search]: the match at the leftmost position that has one. *)
Fixpoint search_from (p : list item) (prev : option ascii) (s : list ascii)
  : option (list ascii) :=
  match match_here p prev s with
  | Some m => Some m
  | None =>
      match s with
      | c :: s' => search_from p (Some c) s'
      | [] => None
      end
  end.

Definition re_search (p : list item) (text : string) : option string :=
  string_of_list_ascii <$> search_from p None (list_ascii_of_string text).

(** [re.findall]: the matches from left to right, each search resuming
    where the previous match ended ([skip] characters further). *)
Fixpoint findall_from (p : list item) (prev : option ascii) (s : list ascii)
    (skip : nat) : list (list ascii) :=
  match skip with
  | S k =>
      match s with
      | c :: s' => findall_from p (Some c) s' k
      | [] => []
      end
  | O =>
      match match_here p prev s with
      | Some m =>
          m :: match s with
               | c :: s' => findall_from p (Some c) s' (length m - 1)
               | [] => []
               end
      | None =>
          match s with
          | c :: s' => findall_from p (Some c) s' 0
          | [] => []
          end
      end
  end.

Definition re_findall (p : list item) (text : string) : list string :=
  string_of_list_ascii <$> findall_from p None (list_ascii_of_string text) 0.

Definition is_dash (c : ascii) : bool := Ascii.eqb c "-"%char.

(** The character sets of the identifier, in order: 8-4-4-4-12. *)
Definition uuid_sets : list (ascii → bool) :=
  replicate 8 is_hex ++ [is_dash] ++ replicate 4 is_hex ++ [is_dash]
  ++ replicate 4 is_hex ++ [is_dash] ++ replicate 4 is_hex ++ [is_dash]
  ++ replicate 12 is_hex.

(** [r'\b[a-fA-F0-9]{8}-[a-fA-F0-9]{4}-[a-fA-F0-9]{4}-[a-fA-F0-9]{4}-[a-fA-F0-9]{12}\b'] *)
Definition org_id_pattern : list item :=
  [Bnd] ++ map Lit uuid_sets ++ [Bnd].

(** [[^/]] *)
Definition not_slash (c : ascii) : bool := negb (Ascii.eqb c "/"%char).

(** [r'([^/]+)$'] ; its only group is the whole match. *)
Definition last_segment_pattern : list item := [Many1 not_slash; End_].

(** The block variants whose text is searched. *)
Definition recognized_types : list string :=
  ["paragraph"; "heading_1"; "heading_2"; "heading_3"; "bulleted_list_item";
   "numbered_list_item"; "to_do"; "toggle"; "callout"; "quote"].

(** [block_type in [...]]: list membership compares with [==]; only a
    string equals a string. *)
Definition py_in_strings (j : json) (l : list string) : bool :=
  match j with
  | JStr s => existsb (String.eqb s) l
  | _ => false
  end.

(** ** The world the program runs in *)

(** A call of [requests.post], [requests.get] or [requests.patch]. *)
Record Request : Type := {
  method : string;
  url : string;
  req_headers : list (string * string);
  req_json : option json
}.

(** What the program reads of a response: [status_code] and the body, which
    is the text of a JSON value or is not (an HTML error page, nothing). *)
Record Response : Type := {
  status_code : Z;
  body : option json
}.

(** [response.json()]: raises [requests.exceptions.JSONDecodeError] when the
    body is not JSON. *)
Definition resp_json (response : Response) : Exc json :=
  match body response with
  | Some j => Val j
  | None => Err JSONDecodeError
  end.

(** One element of [card_info_list]; a row of the export file. *)
Record CardInfo : Type := {
  Link : string;
  Card_Title : string;
  Org_ID : string;
  Source : string
}.

(** A line printed on the console: a formatted text, or a value printed as
    it is ([print(response.json())]). *)
Inductive out : Type :=
| Text (s : string)
| Repr (j : json).

(** The description of the progress bar: the text given at creation, or
    [f"{n}/{total}"]. *)
Inductive BarDesc : Type :=
| DescText (s : string)
| DescRatio (n : nat) (total : json).

(** The [tqdm] progress bar. *)
Record Bar : Type := {
  bar_total : json;
  bar_n : nat;
  bar_desc : BarDesc;
  bar_closed : bool
}.

(** The remote service is a state [W] with a transition per request. The
    environment adds the process's view: the calls made so far with their
    responses, the console, the progress bar, and the files (a file is the
    table [to_csv] wrote and [read_csv] reads). *)
Record Env (W : Type) : Type := {
  world : W;
  calls : list (Request * Response);
  console : list out;
  bar : Bar;
  files : gmap string (list CardInfo)
}.
Arguments world {W} e.
Arguments calls {W} e.
Arguments console {W} e.
Arguments bar {W} e.
Arguments files {W} e.

(** The remote service and the process environment variables. *)
Record Host (W : Type) : Type := {
  send : Request → W → Response * W;
  NOTION_TOKEN : option string;
  DATABASE_ID : option string;
  home : string
}.
Arguments send {W} h.
Arguments NOTION_TOKEN {W} h.
Arguments DATABASE_ID {W} h.
Arguments home {W} h.

(** Outcome of a computation with effects: a value, an exception that
    nothing catches, or a loop that did not end within the fuel. *)
Inductive Res (W A : Type) : Type :=
| Ok (a : A) (e : Env W)
| Raise (x : exn) (e : Env W)
| Diverge.
Arguments Ok {W A} a e.
Arguments Raise {W A} x e.
Arguments Diverge {W A}.

Definition M (W A : Type) : Type := Env W → Res W A.

Definition ret {W A} (a : A) : M W A := λ e, Ok a e.

Definition bind {W A B} (c : M W A) (k : A → M W B) : M W B :=
  λ e, match c e with
       | Ok a e' => k a e'
       | Raise x e' => Raise x e'
       | Diverge => Diverge
       end.

Notation "'let*' x ':=' c 'in' k" := (bind c (λ x, k))
  (at level 10, x name, c at level 100, k at level 200).

Definition lift {W A} (c : Exc A) : M W A :=
  λ e, match c with
       | Val a => Ok a e
       | Err x => Raise x e
       end.

(** [print(...)] *)
Definition print {W} (o : out) : M W unit :=
  λ e, Ok tt {| world := world e; calls := calls e;
                console := console e ++ [o]; bar := bar e; files := files e |}.

Definition set_bar {W} (b : Bar) : M W unit :=
  λ e, Ok tt {| world := world e; calls := calls e;
                console := console e; bar := b; files := files e |}.

Definition get_bar {W} : M W Bar := λ e, Ok (bar e) e.

(** A value [tqdm] can compute with: an [int] (a [bool] is one). *)
Definition is_number (j : json) : bool :=
  match j with
  | JNum _ | JBool _ => true
  | _ => false
  end.

(** [tqdm(total=total, desc=desc, unit="card")].  The bar is drawn when it is
    created, and drawing it evaluates [total and n >= (total + 0.5)]: a
    [total] that is truthy and not a number (a non-empty string, list or
    dictionary) raises [TypeError]; a falsy [total] is never added to. *)
Definition tqdm {W} (total : json) (desc : string) : M W unit :=
  if truthy total && negb (is_number total) then lift (Err TypeError)
  else
    set_bar {| bar_total := total; bar_n := 0; bar_desc := DescText desc;
               bar_closed := false |}.

(** [progress_bar.update(1)] *)
Definition bar_update {W} : M W unit :=
  let* b := get_bar in
  set_bar (W := W) {| bar_total := bar_total b; bar_n := bar_n b + 1;
                      bar_desc := bar_desc b; bar_closed := bar_closed b |}.

(** [progress_bar.set_description(f"{progress_bar.n}/{progress_bar.total}")] *)
Definition bar_describe {W} : M W unit :=
  let* b := get_bar in
  set_bar (W := W) {| bar_total := bar_total b; bar_n := bar_n b;
                      bar_desc := DescRatio (bar_n b) (bar_total b);
                      bar_closed := bar_closed b |}.

(** [progress_bar.close()] *)
Definition bar_close {W} : M W unit :=
  let* b := get_bar in
  set_bar (W := W) {| bar_total := bar_total b; bar_n := bar_n b;
                      bar_desc := bar_desc b; bar_closed := true |}.

(** [os.path.exists(path)] and [pd.read_csv(path)] *)
Definition read_file {W} (path : string) : M W (option (list CardInfo)) :=
  λ e, Ok (files e !! path) e.

(** [df.to_csv(path, index=False)]: the file becomes the table. *)
Definition write_file {W} (path : string) (rows : list CardInfo) : M W unit :=
  λ e, Ok tt {| world := world e; calls := calls e; console := console e;
                bar := bar e; files := <[path := rows]> (files e) |}.

(** [str(n)] for an integer. *)
Definition str_Z (n : Z) : string := NilZero.string_of_int (Z.to_int n).

(** How an f-string shows the value of [os.getenv]. *)
Definition str_env (v : option string) : string :=
  match v with
  | Some s => s
  | None => "None"
  end.

Definition NOTION_VERSION : string := "2022-06-28".

Section Requests.
Context {W : Type} (host : Host W).

Definition headers : list (string * string) :=
  [("Authorization", "Bearer " +:+ str_env (NOTION_TOKEN host));
   ("Content-Type", "application/json");
   ("Notion-Version", NOTION_VERSION)].

(** One request: the remote service answers and changes state; the call
    is recorded. *)
Definition request (meth : string) (u : string) (payload : option json)
  : M W Response :=
  λ e,
    let rq := {| method := meth; url := u; req_headers := headers;
                 req_json := payload |} in
    let (rs, w') := send host rq (world e) in
    Ok rs {| world := w'; calls := calls e ++ [(rq, rs)];
             console := console e; bar := bar e; files := files e |}.

(** [get_database_items(database_id, start_cursor=None)], the same in both
    files.  The result is [JNull] for Python's [None]. *)
Definition get_database_items (database_id : option string)
    (start_cursor : json) : M W json :=
  let u := "https://api.notion.com/v1/databases/" +:+ str_env database_id
           +:+ "/query" in
  let payload :=
    if truthy start_cursor then JObj [("start_cursor", start_cursor)]
    else JObj [] in
  let* response := request "POST" u (Some payload) in
  if negb (status_code response =? 200)%Z then
    let* _ := print (Text ("Error during API request to Notion: "
                           +:+ str_Z (status_code response))) in
    let* error_body := lift (resp_json response) in
    let* _ := print (Repr error_body) in
    ret JNull
  else lift (resp_json response).

(** [get_page_blocks(page_id)], the same in both files. *)
Definition get_page_blocks (page_id : string) : M W json :=
  let u := "https://api.notion.com/v1/blocks/" +:+ page_id +:+ "/children" in
  let* response := request "GET" u None in
  if negb (status_code response =? 200)%Z then
    let* _ := print (Text ("Error during API request to Notion: "
                           +:+ str_Z (status_code response))) in
    let* error_body := lift (resp_json response) in
    let* _ := print (Repr error_body) in
    ret JNull
  else lift (resp_json response).
End Requests.

(** ** What both files share in [extract_card_info] *)

(** [orga_id_property and orga_id_property.get('rich_text')] as a condition. *)
Definition target_filled (orga_id_property : json) : Exc bool :=
  if truthy orga_id_property then
    let? rich_text := py_get orga_id_property "rich_text" JNull in
    Val (truthy rich_text)
  else Val false.

(** [next((prop for prop in values if prop['type'] == 'title'), None)] *)
Fixpoint first_title (values : list json) : Exc json :=
  match values with
  | [] => Val JNull
  | prop :: rest =>
      let? ty := py_getitem prop (JStr "type") in
      match ty with
      | JStr s => if String.eqb s "title" then Val prop else first_title rest
      | _ => first_title rest
      end
  end.

(** The title of a card, from its properties (a dictionary). *)
Definition card_title (properties : json) : Exc string :=
  match properties with
  | JObj fields =>
      let? title_property := first_title (map snd fields) in
      if truthy title_property then
        let? spans := py_getitem title_property (JStr "title") in
        join_field "plain_text" spans
      else Val "Title not found"
  | _ => Err AttributeError
  end.

(** [if org_id:] on the extractor's result. *)
Definition found (org_id : option string) : option string :=
  match org_id with
  | Some s => if String.eqb s "" then None else Some s
  | None => None
  end.

(** ** Data_Extractor.py: the read-only variant *)

Module DataExtractor.

(** The loop of [extract_org_id_from_blocks] over the blocks. *)
Fixpoint scan_blocks (blocks : list json) : Exc (option string) :=
  match blocks with
  | [] => Val None
  | block :: rest =>
      let? block_type := py_getitem block (JStr "type") in
      let? block_data := py_getitem block block_type in
      if py_in_strings block_type recognized_types then
        let? rich_text := py_get block_data "rich_text" (JArr []) in
        let? text := join_field "plain_text" rich_text in
        match re_search org_id_pattern text with
        | Some m => Val (Some m)
        | None => scan_blocks rest
        end
      else scan_blocks rest
  end.

Definition extract_org_id_from_blocks (blocks : json) : Exc (option string) :=
  let? results := py_get blocks "results" (JArr []) in
  let? items := py_iter results in
  scan_blocks items.

Section Run.
Context {W : Type} (host : Host W).

(** The body of the loop of [extract_card_info] for one item;
    [card_info_list] is the list built so far. *)
Definition card_step (item : json) (card_info_list : list CardInfo)
  : M W (list CardInfo) :=
  let* properties := lift (py_get item "properties" (JObj [])) in
  let* orga_id_property := lift (py_get properties "ORGA ID*" (JObj [])) in
  let* filled := lift (target_filled orga_id_property) in
  if filled then ret card_info_list
  else
    let* title := lift (card_title properties) in
    let* id := lift (py_getitem item (JStr "id")) in
    match id with
    | JStr id =>
        let page_id := remove_char "-" id in
        let link := "https://www.notion.so/" +:+ page_id in
        let* blocks := get_page_blocks host id in
        let* org_id :=
          if truthy blocks then lift (extract_org_id_from_blocks blocks)
          else ret None in
        let* card_info_list :=
          match found org_id with
          | Some org_id =>
              ret (card_info_list ++
                   [{| Link := link; Card_Title := title;
                       Org_ID := org_id; Source := "Corpus" |}])
          | None => ret card_info_list
          end in
        let* _ := bar_update in
        ret card_info_list
    | _ => lift (Err AttributeError)
    end.

Fixpoint card_loop (items : list json) (card_info_list : list CardInfo)
  : M W (list CardInfo) :=
  match items with
  | [] => ret card_info_list
  | item :: rest =>
      let* card_info_list := card_step item card_info_list in
      card_loop rest card_info_list
  end.

Definition extract_card_info (database_items : json) : M W (list CardInfo) :=
  let* results := lift (py_get database_items "results" (JArr [])) in
  let* items := lift (py_iter results) in
  card_loop items [].

Definition csv_path : string := home host +:+ "/Desktop" +:+ "/orga_ids.csv".

(** The [while True] loop of [main]; [fuel] bounds its iterations. *)
Fixpoint page_loop (fuel : nat) (start_cursor : json)
    (all_card_info : list CardInfo) : M W (list CardInfo) :=
  match fuel with
  | O => λ _, Diverge
  | S fuel =>
      let* database_items :=
        get_database_items host (DATABASE_ID host) start_cursor in
      match database_items with
      | JNull => ret all_card_info
      | _ =>
          let* card_info_list := extract_card_info database_items in
          let all_card_info := all_card_info ++ card_info_list in
          let* has_more := lift (py_get database_items "has_more" JNull) in
          if negb (truthy has_more) then ret all_card_info
          else
            let* start_cursor :=
              lift (py_get database_items "next_cursor" JNull) in
            page_loop fuel start_cursor all_card_info
      end
  end.

(** The end of [main]: the export. *)
Definition export (all_card_info : list CardInfo) : M W unit :=
  match all_card_info with
  | _ :: _ =>
      let* _ := write_file csv_path all_card_info in
      print (Text ("Card information has been written to " +:+ csv_path))
  | [] =>
      print (Text "No cards were found with an organization ID in the body.")
  end.

Definition main (fuel : nat) : M W unit :=
  let* initial_response :=
    get_database_items host (DATABASE_ID host) JNull in
  match initial_response with
  | JNull => print (Text "Error during initial request to Notion API.")
  | _ =>
      let* total_cards := lift (py_get initial_response "total" (JNum 0)) in
      let* _ := tqdm total_cards "Processing cards" in
      let* all_card_info := page_loop fuel JNull [] in
      let* _ := bar_close in
      export all_card_info
  end.
End Run.

End DataExtractor.

(** ** Ingestor.py: the write-back variant *)

Module Ingestor.

(** The loop of [extract_org_id_from_blocks] over the blocks. *)
Fixpoint scan_blocks (blocks : list json) : Exc (option string) :=
  match blocks with
  | [] => Val None
  | block :: rest =>
      let? block_type := py_getitem block (JStr "type") in
      let? block_data := py_getitem block block_type in
      if py_in_strings block_type recognized_types then
        let? rich_text := py_get block_data "rich_text" (JArr []) in
        let? text := join_field "plain_text" rich_text in
        match re_findall org_id_pattern text with
        | m :: _ => Val (Some m)
        | [] => scan_blocks rest
        end
      else scan_blocks rest
  end.

Definition extract_org_id_from_blocks (blocks : json) : Exc (option string) :=
  let? results := py_get blocks "results" (JArr []) in
  let? items := py_iter results in
  scan_blocks items.

(** [set(df_existing['Link'].str.extract(r'([^/]+)$')[0].values)]: a link
    the pattern does not match gives a missing value, which equals no
    identifier. *)
Definition processed_of (df_existing : list CardInfo) : gset string :=
  list_to_set (omap (λ row, re_search last_segment_pattern (Link row)) df_existing).

(** [page_id in processed_ids]: a list or a dictionary cannot be hashed. *)
Definition py_in_set (page_id : json) (processed_ids : gset string) : Exc bool :=
  match page_id with
  | JStr s => Val (bool_decide (s ∈ processed_ids))
  | JArr _ | JObj _ => Err TypeError
  | _ => Val false
  end.

Section Run.
Context {W : Type} (host : Host W).

Definition update_card_property (page_id : string) (orga_id : string)
  : M W bool :=
  let u := "https://api.notion.com/v1/pages/" +:+ page_id in
  let payload :=
    JObj [("properties",
           JObj [("ORGA ID*",
                  JObj [("rich_text",
                         JArr [JObj [("text",
                                      JObj [("content", JStr orga_id)])]])])])] in
  let* response := request host "PATCH" u (Some payload) in
  if negb (status_code response =? 200)%Z then
    let* _ := print (Text ("Error during card update: "
                           +:+ str_Z (status_code response))) in
    let* error_body := lift (resp_json response) in
    let* _ := print (Repr error_body) in
    ret false
  else ret true.

Definition verify_card_property (page_id : string) (expected_orga_id : string)
  : M W bool :=
  let u := "https://api.notion.com/v1/pages/" +:+ page_id in
  let* response := request host "GET" u None in
  if negb (status_code response =? 200)%Z then
    let* _ := print (Text ("Error during card verification: "
                           +:+ str_Z (status_code response))) in
    let* error_body := lift (resp_json response) in
    let* _ := print (Repr error_body) in
    ret false
  else
    let* page := lift (resp_json response) in
    let* properties := lift (py_get page "properties" (JObj [])) in
    let* orga_id_property := lift (py_get properties "ORGA ID*" (JObj [])) in
    let* filled := lift (target_filled orga_id_property) in
    if filled then
      let* spans := lift (py_getitem orga_id_property (JStr "rich_text")) in
      let* orga_id_text := lift (join_field "plain_text" spans) in
      if String.eqb orga_id_text expected_orga_id then ret true
      else ret false
    else ret false.

(** The body of the loop of [extract_card_info] for one item. *)
Definition card_step (processed_ids : gset string) (item : json)
    (card_info_list : list CardInfo) : M W (list CardInfo) :=
  let* properties := lift (py_get item "properties" (JObj [])) in
  let* orga_id_property := lift (py_get properties "ORGA ID*" (JObj [])) in
  let* filled := lift (target_filled orga_id_property) in
  if filled then ret card_info_list
  else
    let* page_id := lift (py_getitem item (JStr "id")) in
    let* seen := lift (py_in_set page_id processed_ids) in
    if seen then ret card_info_list
    else
      let* title := lift (card_title properties) in
      match page_id with
      | JStr page_id =>
          let link := "https://www.notion.so/" +:+ remove_char "-" page_id in
          let* blocks := get_page_blocks host page_id in
          let* org_id :=
            if truthy blocks then lift (extract_org_id_from_blocks blocks)
            else ret None in
          let* card_info_list :=
            match found org_id with
            | Some org_id =>
                let* updated := update_card_property page_id org_id in
                if updated then
                  let* verified := verify_card_property page_id org_id in
                  if verified then
                    let* _ := print (Text ("Card " +:+ page_id
                      +:+ "'s 'ORGA ID*' was updated with organization ID "
                      +:+ org_id +:+ ".")) in
                    ret (card_info_list ++
                         [{| Link := link; Card_Title := title;
                             Org_ID := org_id; Source := "Corpus" |}])
                  else
                    let* _ := print (Text ("Failed to verify 'ORGA ID*' for card "
                                           +:+ page_id +:+ ".")) in
                    ret card_info_list
                else
                  let* _ := print (Text ("Failed to update 'ORGA ID*' for card "
                                         +:+ page_id +:+ ".")) in
                  ret card_info_list
            | None => ret card_info_list
            end in
          let* _ := bar_update in
          let* _ := bar_describe in
          ret card_info_list
      | _ => lift (Err AttributeError)
      end.

Fixpoint card_loop (processed_ids : gset string) (items : list json)
    (card_info_list : list CardInfo) : M W (list CardInfo) :=
  match items with
  | [] => ret card_info_list
  | item :: rest =>
      let* card_info_list := card_step processed_ids item card_info_list in
      card_loop processed_ids rest card_info_list
  end.

Definition extract_card_info (database_items : json)
    (processed_ids : gset string) : M W (list CardInfo) :=
  let* results := lift (py_get database_items "results" (JArr [])) in
  let* items := lift (py_iter results) in
  card_loop processed_ids items [].

Definition csv_path : string := home host +:+ "/Desktop" +:+ "/V2.csv".

(** The start of [main]: the identifiers of the cards of the existing
    export file. *)
Definition load_processed : M W (gset string) :=
  let* existing := read_file csv_path in
  match existing with
  | Some df_existing => ret (processed_of df_existing)
  | None => ret ∅
  end.

(** The [while True] loop of [main]; [fuel] bounds its iterations. *)
Fixpoint page_loop (processed_ids : gset string) (fuel : nat)
    (start_cursor : json) (all_card_info : list CardInfo)
  : M W (list CardInfo) :=
  match fuel with
  | O => λ _, Diverge
  | S fuel =>
      let* database_items :=
        get_database_items host (DATABASE_ID host) start_cursor in
      match database_items with
      | JNull => ret all_card_info
      | _ =>
          let* card_info_list :=
            extract_card_info database_items processed_ids in
          let all_card_info := all_card_info ++ card_info_list in
          let* has_more := lift (py_get database_items "has_more" JNull) in
          if negb (truthy has_more) then ret all_card_info
          else
            let* start_cursor :=
              lift (py_get database_items "next_cursor" JNull) in
            page_loop processed_ids fuel start_cursor all_card_info
      end
  end.

(** The end of [main]: the export. *)
Definition export (all_card_info : list CardInfo) : M W unit :=
  match all_card_info with
  | _ :: _ =>
      let* _ := write_file csv_path all_card_info in
      let* _ := print (Text ("Card information has been written to "
                             +:+ csv_path)) in
      print (Text ("Number of cards without 'ORGA ID*': "
                   +:+ str_Z (Z.of_nat (length all_card_info))))
  | [] =>
      print (Text "No cards were found without the 'ORGA ID*' property.")
  end.

Definition main (fuel : nat) : M W unit :=
  let* processed_ids := load_processed in
  let* initial_response :=
    get_database_items host (DATABASE_ID host) JNull in
  match initial_response with
  | JNull => print (Text "Error during initial Notion API request.")
  | _ =>
      let* total_cards := lift (py_get initial_response "total" (JNum 0)) in
      let* _ := tqdm total_cards "Processing cards" in
      let* all_card_info := page_loop processed_ids fuel JNull [] in
      let* _ := bar_close in
      export all_card_info
  end.
End Run.

End Ingestor.

(** ** Notions the properties are stated with *)

(** [m] has the shape 8-4-4-4-12: groups of hexadecimal digits separated by
    hyphens. *)
Definition uuid_shape (m : list ascii) : Prop :=
  ∃ a b c d e,
    m = a ++ "-"%char :: b ++ "-"%char :: c ++ "-"%char :: d ++ "-"%char :: e
    ∧ length a = 8 ∧ length b = 4 ∧ length c = 4 ∧ length d = 4
    ∧ length e = 12
    ∧ Forall (λ x, is_hex x = true) (a ++ b ++ c ++ d ++ e).

(** [m], between [before] and [after], is a match of the identifier pattern:
    it has the shape and a word boundary at each end. *)
Definition matches_at (before m after : list ascii) : Prop :=
  uuid_shape m
  ∧ boundary (last before) (head m) = true
  ∧ boundary (last m) (head after) = true.

(** [id] is a match of the pattern in [text], right after the prefix [pre]. *)
Definition occurs_at (text : string) (pre : list ascii) (id : string) : Prop :=
  ∃ post,
    list_ascii_of_string text = pre ++ list_ascii_of_string id ++ post
    ∧ matches_at pre (list_ascii_of_string id) post.

Definition has_match (text : string) : Prop :=
  ∃ pre id, occurs_at text pre id.

(** [id] is the match that occurs earliest in [text]. *)
Definition first_match (text id : string) : Prop :=
  ∃ pre,
    occurs_at text pre id
    ∧ ∀ pre' id', occurs_at text pre' id' → length pre ≤ length pre'.

(** A Content Block: its variant tag and its plain-text runs. *)
Record Block : Type := {
  variant : string;
  runs : list string
}.

Definition recognized (b : Block) : Prop := variant b ∈ recognized_types.

(** The text of a block: its runs, concatenated. *)
Definition block_text (b : Block) : string := foldr String.append "" (runs b).

(** [span] is a rich-text span whose plain text is [run]. *)
Definition span_of (span : json) (run : string) : Prop :=
  ∃ fields, span = JObj fields ∧ dict_lookup "plain_text" fields = Some (JStr run).

(** [data], the value of the field named by the variant, carries the runs:
    a list of spans under ['rich_text'], or no such field and no run. *)
Definition rich_text_of (data : json) (rs : list string) : Prop :=
  ∃ fields,
    data = JObj fields
    ∧ match dict_lookup "rich_text" fields with
      | Some (JArr spans) => Forall2 span_of spans rs
      | Some _ => False
      | None => rs = []
      end.

(** The dictionary [j] is the block [b] as the service sends it: its
    ['type'] is the variant, and it has a field of that name, which carries
    the runs when the variant is recognized. *)
Definition block_of (j : json) (b : Block) : Prop :=
  ∃ fields data,
    j = JObj fields
    ∧ dict_lookup "type" fields = Some (JStr (variant b))
    ∧ dict_lookup (variant b) fields = Some data
    ∧ (recognized b → rich_text_of data (runs b)).

(** No recognized block of [bs] has a match in its text. *)
Definition no_match_in (bs : list Block) : Prop :=
  Forall (λ b, recognized b → ¬ has_match (block_text b)) bs.

(** What the sentence on the Identifier Extractor says of the result [r] for
    the blocks [bs]. *)
Definition earliest_identifier (bs : list Block) (r : option string) : Prop :=
  match r with
  | Some id =>
      ∃ pre b post,
        bs = pre ++ b :: post ∧ recognized b
        ∧ first_match (block_text b) id ∧ no_match_in pre
  | None => no_match_in bs
  end.

(** ** Sample data *)

(** A block as the service sends it: variant [ty], one span per run. *)
Definition block_json (ty : string) (rs : list string) : json :=
  JObj [("object", JStr "block");
        ("type", JStr ty);
        (ty, JObj [("rich_text",
                    JArr (map (λ r, JObj [("type", JStr "text");
                                          ("plain_text", JStr r)]) rs))])].

Definition sample_id : string := "a1b2c3d4-e5f6-7890-abcd-ef1234567890".

(** An image block (not searched), then a paragraph in two runs. *)
Definition sample_blocks : list Block :=
  [ {| variant := "image"; runs := ["0f0e0d0c-0b0a-0908-0706-050403020100"] |};
    {| variant := "paragraph";
       runs := ["see ref a1b2c3d4-e5f6-"; "7890-abcd-ef1234567890 for details"] |} ].

Definition sample_blocks_json : json :=
  JObj [("object", JStr "list");
        ("results", JArr (map (λ b, block_json (variant b) (runs b)) sample_blocks));
        ("has_more", JBool false)].

(** A response with a matching paragraph followed by a block that has no
    ['type']. *)
Definition blocks_then_untyped : list json :=
  [block_json "paragraph" [sample_id]; JObj [("object", JStr "block")]].

(** A scripted remote service: its state is the responses still to give,
    one per request, in order; after the last it answers 500. *)
Definition scripted (rq : Request) (w : list Response) : Response * list Response :=
  match w with
  | rs :: w' => (rs, w')
  | [] => ({| status_code := 500; body := Some (JObj []) |}, [])
  end.

Definition scripted_host : Host (list Response) :=
  {| send := scripted; NOTION_TOKEN := Some "secret";
     DATABASE_ID := Some "db"; home := "/home/user" |}.

Definition idle_bar : Bar :=
  {| bar_total := JNull; bar_n := 0; bar_desc := DescText ""; bar_closed := true |}.

(** The environment when the process starts. *)
Definition start {W} (w : W) (fs : gmap string (list CardInfo)) : Env W :=
  {| world := w; calls := []; console := []; bar := idle_bar; files := fs |}.

Definition ok (j : json) : Response := {| status_code := 200; body := Some j |}.

Definition rich (text : string) : json :=
  JObj [("type", JStr "rich_text");
        ("rich_text", JArr [JObj [("type", JStr "text"); ("plain_text", JStr text)]])].

Definition no_text : json :=
  JObj [("type", JStr "rich_text"); ("rich_text", JArr [])].

(** A card as the listing sends it: identifier, title, and the value of the
    target field. *)
Definition card (id title : string) (orga : json) : json :=
  JObj [("object", JStr "page");
        ("id", JStr id);
        ("properties",
         JObj [("ORGA ID*", orga);
               ("Name", JObj [("type", JStr "title");
                              ("title", JArr [JObj [("plain_text", JStr title)]])])])].

(** A page of the listing. *)
Definition listing (cards : list json) (more : bool) (next : json) : json :=
  JObj [("object", JStr "list"); ("results", JArr cards);
        ("has_more", JBool more); ("next_cursor", next)].

Definition blocks_with (texts : list string) : json :=
  JObj [("object", JStr "list");
        ("results", JArr (map (λ t, block_json "paragraph" [t]) texts))].

Definition card_id : string := "59833787-2cf9-4fdf-8782-e53db20768a5".

(** ** Notions for the reconciliation loop *)

(** The target field of the card [item] holds non-empty rich text. *)
Definition target_set (item : json) : Prop :=
  ∃ fields props ofields span spans,
    item = JObj fields
    ∧ dict_lookup "properties" fields = Some (JObj props)
    ∧ dict_lookup "ORGA ID*" props = Some (JObj ofields)
    ∧ dict_lookup "rich_text" ofields = Some (JArr (span :: spans)).

(** The identifier of the card [item] is [id]. *)
Definition card_has_id (item : json) (id : string) : Prop :=
  ∃ fields, item = JObj fields ∧ dict_lookup "id" fields = Some (JStr id).

(** The target field of the card [item] is absent or holds no text. *)
Definition target_unset (item : json) : Prop :=
  ∃ fields props,
    item = JObj fields
    ∧ dict_lookup "properties" fields = Some (JObj props)
    ∧ (dict_lookup "ORGA ID*" props = None
       ∨ ∃ ofields,
           dict_lookup "ORGA ID*" props = Some (JObj ofields)
           ∧ (dict_lookup "rich_text" ofields = None
              ∨ dict_lookup "rich_text" ofields = Some (JArr []))).

(** The requests of a run, as pairs of method and address. *)
Definition requests_made {W} (e : Env W) : list (string * string) :=
  map (λ c, (method (fst c), url (fst c))) (calls e).

Definition sample_record : CardInfo :=
  {| Link := "https://www.notion.so/598337872cf94fdf8782e53db20768a5";
     Card_Title := "Acme"; Org_ID := sample_id; Source := "Corpus" |}.

Definition export_path : string := "/home/user/Desktop/V2.csv".

(** A run of the write-back variant: the listing has one card with an empty
    target field; its blocks hold an identifier; the update and the
    verification succeed. *)
Definition writing_run : list Response :=
  [ ok (listing [card card_id "Acme" no_text] false JNull);
    ok (listing [card card_id "Acme" no_text] false JNull);
    ok (blocks_with ["see ref a1b2c3d4-e5f6-7890-abcd-ef1234567890 for details"]);
    ok (JObj [("object", JStr "page")]);
    ok (card card_id "Acme" (rich sample_id)) ].

(** A page of three cards: one with the target field set, one whose
    identifier (written without hyphens) is in the export file, one whose
    blocks hold no identifier. *)
Definition mixed_page : list json :=
  [ card card_id "Acme" (rich sample_id);
    card "0a1b2c3d4e5f60718293a4b5c6d7e8f9" "Birch" no_text;
    card "7c9e6679-7425-40de-944b-e07fc1f90ae7" "Cedar" no_text ].

Definition mixed_run : list Response :=
  [ ok (listing mixed_page false JNull);
    ok (listing mixed_page false JNull);
    ok (blocks_with ["nothing to see"]);
    ok (blocks_with ["nothing to see"]) ].

Definition earlier_export : gmap string (list CardInfo) :=
  {[ export_path :=
       [{| Link := "https://www.notion.so/0a1b2c3d4e5f60718293a4b5c6d7e8f9";
           Card_Title := "Birch"; Org_ID := sample_id; Source := "Corpus" |}] ]}.

(** The card [item] reaches the write step of the write-back variant from
    the environment [e]: its target field is empty, its identifier
    [page_id] is not in the Processed-ID Set, its title is [title], and the
    fetch of its blocks, which leaves the environment [e1], discovers
    [org_id]. *)
Definition reaches_write {W} (host : Host W) (ids : gset string) (item : json)
    (e : Env W) (page_id title org_id : string) (e1 : Env W) : Prop :=
  target_unset item ∧ card_has_id item page_id ∧ (page_id ∉ ids)
  ∧ (∃ properties,
       py_get item "properties" (JObj []) = Val properties
       ∧ card_title properties = Val title)
  ∧ ∃ blocks,
      get_page_blocks host page_id e = Ok blocks e1
      ∧ truthy blocks = true
      ∧ Ingestor.extract_org_id_from_blocks blocks = Val (Some org_id)
      ∧ org_id ≠ "".

(** The Result Record of a card. *)
Definition record_of (page_id title org_id : string) : CardInfo :=
  {| Link := "https://www.notion.so/" +:+ remove_char "-" page_id;
     Card_Title := title; Org_ID := org_id; Source := "Corpus" |}.

(** The request by which the verification reads a card again. *)
Definition reread {W} (host : Host W) (page_id : string) : Request :=
  {| method := "GET"; url := "https://api.notion.com/v1/pages/" +:+ page_id;
     req_headers := headers host; req_json := None |}.

(** The cards of a page of the listing, as [extract_card_info] visits them. *)
Definition items_of (database_items : json) : list json :=
  match py_get database_items "results" (JArr []) with
  | Val results =>
      match py_iter results with
      | Val items => items
      | Err _ => []
      end
  | Err _ => []
  end.

(** The cards that the successful listing requests of a log delivered, in
    order. *)
Definition delivered (log : list (Request * Response)) : list json :=
  flat_map (λ c, if String.eqb (method (fst c)) "POST"
                    && (status_code (snd c) =? 200)%Z
                 then match body (snd c) with
                      | Some database_items => items_of database_items
                      | None => []
                      end
                 else []) log.

(** The link of the record of a card. *)
Definition link_of (item : json) : string :=
  match py_getitem item (JStr "id") with
  | Val (JStr id) => "https://www.notion.so/" +:+ remove_char "-" id
  | _ => ""
  end.

(** Nothing was written to a file and no listing arrived between [e] and
    [e']. *)
Definition quiet {W} (e e' : Env W) : Prop :=
  files e' = files e ∧ delivered (calls e') = delivered (calls e).

(** [c], when it returns, has been quiet and returns a value in [P]. *)
Definition Spec {W A} (c : M W A) (P : A → Prop) : Prop :=
  ∀ e a e', c e = Ok a e' → quiet e e' ∧ P a.

(** A listing that delivers the same card on two pages (its target field
    empty both times), for the read-only and for the write-back variant. *)
Definition repeating_listing : list Response :=
  [ ok (listing [card card_id "Acme" no_text] true (JStr "cursor-1"));
    ok (listing [card card_id "Acme" no_text] true (JStr "cursor-1"));
    ok (blocks_with [sample_id]);
    ok (listing [card card_id "Acme" no_text] false JNull);
    ok (blocks_with [sample_id]) ].

Definition repeating_listing_written : list Response :=
  [ ok (listing [card card_id "Acme" no_text] true (JStr "cursor-1"));
    ok (listing [card card_id "Acme" no_text] true (JStr "cursor-1"));
    ok (blocks_with [sample_id]);
    ok (JObj [("object", JStr "page")]);
    ok (card card_id "Acme" (rich sample_id));
    ok (listing [card card_id "Acme" no_text] false JNull);
    ok (blocks_with [sample_id]);
    ok (JObj [("object", JStr "page")]);
    ok (card card_id "Acme" (rich sample_id)) ].



(** The listing succeeds; the blocks of the card hold a block without
    ['type']. *)
Definition untyped_block_run : list Response :=
  [ ok (listing [card card_id "Acme" no_text] false JNull);
    ok (listing [card card_id "Acme" no_text] false JNull);
    ok (JObj [("object", JStr "list");
              ("results", JArr [JObj [("object", JStr "block")]])]) ].

(** A remote service whose listing never ends: every page is empty and
    announces a next page. *)
Definition endless_host : Host unit :=
  {| send := λ _ w, (ok (listing [] true (JStr "again")), w);
     NOTION_TOKEN := Some "secret"; DATABASE_ID := Some "db";
     home := "/home/user" |}.

(** The Processed-ID Set that a run started in [e] loads. *)
Definition processed_at {W} (host : Host W) (e : Env W) : gset string :=
  match files e !! Ingestor.csv_path host with
  | Some df_existing => Ingestor.processed_of df_existing
  | None => ∅
  end.

(** The first guard of the loop body holds for [item]: the target field is
    set. *)
Definition is_filled (item : json) : bool :=
  match py_get item "properties" (JObj []) with
  | Val properties =>
      match py_get properties "ORGA ID*" (JObj []) with
      | Val orga_id_property =>
          match target_filled orga_id_property with
          | Val b => b
          | Err _ => false
          end
      | Err _ => false
      end
  | Err _ => false
  end.

(** The second guard of the write-back variant holds for [item]: its
    identifier is in the Processed-ID Set. *)
Definition is_processed (ids : gset string) (item : json) : bool :=
  match py_getitem item (JStr "id") with
  | Val page_id =>
      match Ingestor.py_in_set page_id ids with
      | Val b => b
      | Err _ => false
      end
  | Err _ => false
  end.

(** [c], when it returns, has left the progress bar as it was. *)
Definition Keeps {W A} (c : M W A) : Prop :=
  ∀ e a e', c e = Ok a e' → bar e' = bar e.


(** ** Notions for the further properties *)

(** [prop] is a property of a card with a ['type'] other than ['title']. *)
Definition other_property (prop : json) : Prop :=
  ∃ fields ty,
    prop = JObj fields ∧ dict_lookup "type" fields = Some ty ∧ ty ≠ JStr "title".

(** [prop] is a title property whose spans have the plain texts [rs]. *)
Definition title_property (prop : json) (rs : list string) : Prop :=
  ∃ fields spans,
    prop = JObj fields
    ∧ dict_lookup "type" fields = Some (JStr "title")
    ∧ dict_lookup "title" fields = Some (JArr spans)
    ∧ Forall2 span_of spans rs.

(** [text] ends with a slash. *)
Definition ends_with_slash (text : string) : Prop :=
  ∃ base, text = base +:+ "/".

(** [seg] is what follows the last slash of [text] (all of [text] when it
    has none). *)
Definition last_segment (text seg : string) : Prop :=
  Forall (λ c, not_slash c = true) (list_ascii_of_string seg)
  ∧ ∃ base, text = base +:+ seg ∧ (base = "" ∨ ends_with_slash base).

(** Whatever the outcome of [c] (a value or an exception), the requests it
    has sent, in order, satisfy [T]; nothing is removed from the log. *)
Definition Trace {W A} (c : M W A) (T : list Request → Prop) : Prop :=
  ∀ e,
    match c e with
    | Ok _ e' | Raise _ e' =>
        ∃ extra, calls e' = calls e ++ extra ∧ T (map fst extra)
    | Diverge => True
    end.

(** [c] always returns and sends nothing. *)
Definition Silent {W A} (c : M W A) : Prop :=
  ∀ e, ∃ a e', c e = Ok a e' ∧ calls e' = calls e.

(** The requests of the program. *)
Definition listing_request {W} (host : Host W) (payload : json) : Request :=
  {| method := "POST";
     url := "https://api.notion.com/v1/databases/" +:+ str_env (DATABASE_ID host)
            +:+ "/query";
     req_headers := headers host; req_json := Some payload |}.

Definition blocks_request {W} (host : Host W) (page_id : string) : Request :=
  {| method := "GET";
     url := "https://api.notion.com/v1/blocks/" +:+ page_id +:+ "/children";
     req_headers := headers host; req_json := None |}.

(** The payload of an update: the target field set to one run of text. *)
Definition update_payload (orga_id : string) : json :=
  JObj [("properties",
         JObj [("ORGA ID*",
                JObj [("rich_text",
                       JArr [JObj [("text",
                                    JObj [("content", JStr orga_id)])]])])])].

Definition update_request {W} (host : Host W) (page_id orga_id : string)
  : Request :=
  {| method := "PATCH"; url := "https://api.notion.com/v1/pages/" +:+ page_id;
     req_headers := headers host; req_json := Some (update_payload orga_id) |}.

(** A request of the read-only variant: a listing or the blocks of a page. *)
Definition reading_request {W} (host : Host W) (rq : Request) : Prop :=
  (∃ payload, rq = listing_request host payload)
  ∨ (∃ page_id, rq = blocks_request host page_id).

(** A request of the write-back variant: a listing, the blocks of a page, a
    page read again, or the update of a page with an identifier of the
    8-4-4-4-12 shape. *)
Definition write_back_request {W} (host : Host W) (rq : Request) : Prop :=
  (∃ payload, rq = listing_request host payload)
  ∨ (∃ page_id, rq = blocks_request host page_id)
  ∨ (∃ page_id, rq = reread host page_id)
  ∨ (∃ page_id orga_id,
       rq = update_request host page_id orga_id
       ∧ uuid_shape (list_ascii_of_string orga_id)).

(** The requests the read-only variant sends for the card [item]: none, or
    the fetch of its blocks. *)
Definition read_only_card_requests {W} (host : Host W) (item : json)
    (l : list Request) : Prop :=
  l = []
  ∨ ∃ page_id,
      py_getitem item (JStr "id") = Val (JStr page_id)
      ∧ l = [blocks_request host page_id].

(** The requests the write-back variant sends for the card [item]: none, or
    the fetch of its blocks, then at most one update, then at most one
    re-read, all for the card's identifier. *)
Definition write_back_card_requests {W} (host : Host W) (item : json)
    (l : list Request) : Prop :=
  l = []
  ∨ ∃ page_id,
      py_getitem item (JStr "id") = Val (JStr page_id)
      ∧ (l = [blocks_request host page_id]
         ∨ ∃ orga_id,
             l = [blocks_request host page_id;
                  update_request host page_id orga_id]
             ∨ l = [blocks_request host page_id;
                    update_request host page_id orga_id;
                    reread host page_id]).

(** The requests of a run begin with the cursor-less listing, sent once when
    the run ends there and twice in a row otherwise. *)
Definition first_page_twice {W} (host : Host W) (l : list Request) : Prop :=
  l = [listing_request host (JObj [])]
  ∨ ∃ rest,
      l = listing_request host (JObj []) :: listing_request host (JObj []) :: rest.

(** The payload of a listing request for the cursor [start_cursor]. *)
Definition listing_payload (start_cursor : json) : json :=
  if truthy start_cursor then JObj [("start_cursor", start_cursor)] else JObj [].

(** * Properties *)

(** ** The pattern matcher *)

Lemma last_cons_from {A} (c : A) (m : list A) (prev : option A) :
  from_option Some prev (last (c :: m)) = from_option Some (Some c) (last m).
Proof. destruct m as [|x m]; [done|]. rewrite last_cons. by destruct (last (x :: m)). Qed.

(** A run of character sets matches a prefix of the text, character by
    character; the rest of the pattern goes on after it. *)
Lemma match_here_lits (fs : list (ascii → bool)) :
  ∀ p' prev s r,
    match_here (map Lit fs ++ p') prev s = Some r ↔
    ∃ m rest r',
      s = m ++ rest ∧ Forall2 (λ f c, f c = true) fs m
      ∧ match_here p' (from_option Some prev (last m)) rest = Some r'
      ∧ r = m ++ r'.
Proof.
  induction fs as [|f fs IH]; intros p' prev s r; simpl.
  - split.
    + intros H. exists [], s, r. repeat split; [constructor | done].
    + intros (m & rest & r' & -> & Hm & Hr & ->).
      apply Forall2_nil_inv_l in Hm as ->. done.
  - destruct s as [|c s].
    + split; [done|]. intros (m & rest & r' & Hs & Hm & _).
      apply Forall2_cons_inv_l in Hm as (? & ? & _ & _ & ->). done.
    + destruct (f c) eqn:Hf.
      * destruct (match_here (map Lit fs ++ p') (Some c) s) as [r0|] eqn:E; simpl.
        -- apply IH in E as (m & rest & r' & -> & Hm & Hr & ->).
           split.
           ++ intros [= <-]. exists (c :: m), rest, r'.
              rewrite last_cons_from. repeat split; [by constructor | done].
           ++ intros (m2 & rest2 & r2 & Hs & Hm2 & Hr2 & ->).
              apply Forall2_cons_inv_l in Hm2 as (c2 & m3 & Hc & Hm3 & ->).
              simpl in Hs. injection Hs as <- Hs.
              rewrite last_cons_from in Hr2.
              assert (match_here (map Lit fs ++ p') (Some c) (m ++ rest)
                      = Some (m3 ++ r2)) as E2.
              { apply IH. exists m3, rest2, r2. done. }
              assert (match_here (map Lit fs ++ p') (Some c) (m ++ rest)
                      = Some (m ++ r')) as E1.
              { apply IH. exists m, rest, r'. done. }
              rewrite E1 in E2. injection E2 as ->. done.
        -- split; [done|].
           intros (m2 & rest2 & r2 & Hs & Hm2 & Hr2 & ->).
           apply Forall2_cons_inv_l in Hm2 as (c2 & m3 & Hc & Hm3 & ->).
           simpl in Hs. injection Hs as <- ->.
           rewrite last_cons_from in Hr2.
           assert (match_here (map Lit fs ++ p') (Some c) (m3 ++ rest2)
                   = Some (m3 ++ r2)) as E2.
           { apply IH. exists m3, rest2, r2. done. }
           congruence.
      * split; [done|].
        intros (m2 & rest2 & r2 & Hs & Hm2 & _).
        apply Forall2_cons_inv_l in Hm2 as (c2 & m3 & Hc & Hm3 & ->).
        simpl in Hs. injection Hs as <- _. congruence.
Qed.

Lemma is_dash_eq (c : ascii) : is_dash c = true ↔ c = "-"%char.
Proof. unfold is_dash. apply Ascii.eqb_eq. Qed.

(** The character sets of the pattern describe the 8-4-4-4-12 shape. *)
Lemma uuid_sets_shape (m : list ascii) :
  Forall2 (λ f c, f c = true) uuid_sets m ↔ uuid_shape m.
Proof.
  split.
  - intros H. cbv [uuid_sets replicate app] in H.
    repeat match type of H with
           | Forall2 _ (_ :: _) _ =>
               let Hc := fresh "Hc" in
               apply Forall2_cons_inv_l in H as (? & ? & Hc & H & ->)
           end.
    apply Forall2_nil_inv_l in H as ->.
    repeat match goal with
           | Hd : is_dash _ = true |- _ => apply is_dash_eq in Hd as ->
           end.
    eexists [_;_;_;_;_;_;_;_], [_;_;_;_], [_;_;_;_], [_;_;_;_],
            [_;_;_;_;_;_;_;_;_;_;_;_].
    repeat split. simpl. repeat (constructor; [assumption|]). constructor.
  - intros (a & b & c & d & e & -> & Ha & Hb & Hc & Hd & He & Hx).
    repeat (destruct a as [|? a]; try discriminate Ha).
    repeat (destruct b as [|? b]; try discriminate Hb).
    repeat (destruct c as [|? c]; try discriminate Hc).
    repeat (destruct d as [|? d]; try discriminate Hd).
    repeat (destruct e as [|? e]; try discriminate He).
    simpl in Hx.
    repeat match type of Hx with
           | Forall _ (_ :: _) =>
               let Hh := fresh "Hh" in
               apply Forall_cons in Hx as [Hh Hx]
           end.
    cbv [uuid_sets replicate app]. simpl.
    repeat (constructor; [assumption || reflexivity|]). constructor.
Qed.

Lemma uuid_shape_length (m : list ascii) : uuid_shape m → length m = 36.
Proof.
  intros (a & b & c & d & e & -> & Ha & Hb & Hc & Hd & He & _).
  repeat (rewrite ?length_app; simpl). lia.
Qed.

(** The identifier pattern matches at the start of [s] exactly when [s]
    starts with an identifier that has a word boundary at each end. *)
Lemma match_here_org_id (prev : option ascii) (s m : list ascii) :
  match_here org_id_pattern prev s = Some m ↔
  ∃ rest, s = m ++ rest
          ∧ uuid_shape m
          ∧ boundary prev (head m) = true
          ∧ boundary (last m) (head rest) = true.
Proof.
  unfold org_id_pattern.
  change ([Bnd] ++ map Lit uuid_sets ++ [Bnd])
    with (Bnd :: (map Lit uuid_sets ++ [Bnd])).
  cbn [match_here].
  assert (Hne : ∀ l : list ascii, uuid_shape l → ∃ c l', l = c :: l').
  { intros l Hl. apply uuid_shape_length in Hl. destruct l; [done|eauto]. }
  split.
  - destruct (boundary prev (head s)) eqn:Hb; [|done].
    intros H. apply match_here_lits in H as (m0 & rest & r' & -> & Hm & Hr & ->).
    apply uuid_sets_shape in Hm.
    destruct (Hne _ Hm) as (c & l' & ->).
    cbn [match_here] in Hr.
    destruct (boundary _ (head rest)) eqn:Hb2; [|done].
    injection Hr as <-. rewrite app_nil_r.
    exists rest. repeat split; [done|done|].
    revert Hb2. destruct (last (c :: l')) eqn:El; [done|].
    by apply last_None in El.
  - intros (rest & -> & Hm & Hb1 & Hb2).
    destruct (Hne _ Hm) as (c & l' & ->).
    change (head ((c :: l') ++ rest)) with (head (c :: l')). rewrite Hb1.
    apply match_here_lits. exists (c :: l'), rest, [].
    repeat split; [by apply uuid_sets_shape| |by rewrite app_nil_r].
    cbn [match_here].
    destruct (last (c :: l')) eqn:El; [|by apply last_None in El].
    simpl. by rewrite Hb2.
Qed.

(** [re.search] with the identifier pattern returns the occurrence that
    starts earliest; [before] is the text already passed. *)
Lemma search_from_org_id (s : list ascii) :
  ∀ before m,
    search_from org_id_pattern (last before) s = Some m ↔
    ∃ pre post,
      s = pre ++ m ++ post
      ∧ matches_at (before ++ pre) m post
      ∧ ∀ pre' m' post',
          s = pre' ++ m' ++ post' → matches_at (before ++ pre') m' post' →
          length pre ≤ length pre'.
Proof.
  induction s as [|c s IH]; intros before m.
  - cbn [search_from].
    destruct (match_here org_id_pattern (last before) []) as [m0|] eqn:E.
    { apply match_here_org_id in E as (rest & Hs & Hm & _).
      apply uuid_shape_length in Hm. symmetry in Hs.
      apply app_eq_nil in Hs as [-> _]. done. }
    split; [done|]. intros (pre & post & Hs & (Hm & _) & _).
    apply uuid_shape_length in Hm. symmetry in Hs.
    apply app_eq_nil in Hs as [_ Hs]. apply app_eq_nil in Hs as [-> _]. done.
  - cbn [search_from].
    destruct (match_here org_id_pattern (last before) (c :: s)) as [m0|] eqn:E.
    + apply match_here_org_id in E as (rest & Hs & Hm & Hb1 & Hb2).
      split.
      * intros [= <-]. exists [], rest. rewrite app_nil_r.
        split; [done|]. split; [by repeat split|]. intros. simpl. lia.
      * intros (pre & post & Hs' & (Hm' & _) & Hmin).
        specialize (Hmin [] m0 rest Hs).
        rewrite app_nil_r in Hmin. specialize (Hmin (conj Hm (conj Hb1 Hb2))).
        destruct pre; [|simpl in Hmin; lia].
        simpl in Hs'. rewrite Hs in Hs'.
        apply app_inj_1 in Hs' as [-> _]; [done|].
        apply uuid_shape_length in Hm, Hm'. congruence.
    + assert (Hno : ∀ m' post', c :: s = m' ++ post' → ¬ matches_at before m' post').
      { intros m' post' Hs (Hm & Hb1 & Hb2).
        assert (match_here org_id_pattern (last before) (c :: s) = Some m') as E'.
        { apply match_here_org_id. by exists post'. }
        congruence. }
      replace (Some c) with (last (before ++ [c])) by apply last_snoc.
      rewrite IH. split.
      * intros (pre & post & -> & Hm & Hmin).
        exists (c :: pre), post. rewrite <- (assoc (++) before [c] pre) in Hm.
        split; [done|]. split; [exact Hm|].
        intros pre' m' post' Hs' Hm'. destruct pre' as [|c' pre'].
        { rewrite app_nil_r in Hm'. by destruct (Hno m' post' Hs' Hm'). }
        simpl in Hs'. injection Hs' as <- Hs'.
        rewrite (cons_middle c before pre'), (assoc (++)) in Hm'.
        specialize (Hmin _ _ _ Hs' Hm'). simpl. lia.
      * intros (pre & post & Hs & Hm & Hmin). destruct pre as [|c' pre].
        { rewrite app_nil_r in Hm. by destruct (Hno m post Hs Hm). }
        simpl in Hs. injection Hs as <- Hs. subst s.
        exists pre, post. rewrite <- (assoc (++) before [c] pre).
        split; [done|]. split; [exact Hm|].
        intros pre' m' post' Hs' Hm'.
        rewrite <- (assoc (++) before [c] pre') in Hm'.
        assert (c :: pre ++ m ++ post = (c :: pre') ++ m' ++ post') as Hs2
          by (simpl; congruence).
        specialize (Hmin (c :: pre') m' post' Hs2 Hm'). simpl in Hmin. lia.
Qed.

(** [re.search] finds nothing only when the text has no occurrence. *)
Lemma search_from_org_id_none (s : list ascii) :
  ∀ before,
    search_from org_id_pattern (last before) s = None →
    ∀ pre m post, s = pre ++ m ++ post → ¬ matches_at (before ++ pre) m post.
Proof.
  induction s as [|c s IH]; intros before; cbn [search_from];
    destruct (match_here org_id_pattern (last before) _) as [m0|] eqn:E;
    try done; intros Hsearch pre m post Hs Hm.
  - symmetry in Hs. apply app_eq_nil in Hs as [_ Hs].
    apply app_eq_nil in Hs as [-> _].
    destruct Hm as (Hm & _). by apply uuid_shape_length in Hm.
  - destruct pre as [|c' pre].
    + rewrite app_nil_r in Hm. destruct Hm as (Hm & Hb1 & Hb2).
      assert (match_here org_id_pattern (last before) (c :: s) = Some m) as E'.
      { apply match_here_org_id. by exists post. }
      congruence.
    + simpl in Hs. injection Hs as <- Hs. subst s.
      replace (Some c) with (last (before ++ [c])) in Hsearch by apply last_snoc.
      apply (IH _ Hsearch pre m post eq_refl).
      by rewrite <- (assoc (++) before [c] pre).
Qed.

(** The first element of [re.findall] is the match of [re.search], for any
    pattern. *)
Lemma findall_from_head (p : list item) (s : list ascii) :
  ∀ prev, head (findall_from p prev s 0) = search_from p prev s.
Proof.
  induction s as [|c s IH]; intros prev; cbn [findall_from search_from];
    destruct (match_here p prev _); try done.
Qed.

Lemma re_findall_head (p : list item) (text : string) :
  head (re_findall p text) = re_search p text.
Proof.
  unfold re_findall, re_search. rewrite <- findall_from_head.
  by destruct (findall_from _ _ _ _).
Qed.

(** [re.search] with the identifier pattern gives the earliest match. *)
Lemma re_search_first_match (text id : string) :
  re_search org_id_pattern text = Some id ↔ first_match text id.
Proof.
  unfold re_search, first_match, occurs_at. split.
  - destruct (search_from _ _ _) as [m|] eqn:E; [|done].
    intros [= <-].
    apply (search_from_org_id _ []) in E as (pre & post & Hs & Hm & Hmin).
    exists pre. rewrite list_ascii_of_string_of_list_ascii. split; [by exists post|].
    intros pre' id' (post' & Hs' & Hm'). eauto.
  - intros (pre & (post & Hs & Hm) & Hmin).
    assert (search_from org_id_pattern None (list_ascii_of_string text)
            = Some (list_ascii_of_string id)) as ->.
    { apply (search_from_org_id _ []). exists pre, post.
      split; [done|]. split; [done|].
      intros pre' m' post' Hs' Hm'. apply (Hmin pre' (string_of_list_ascii m')).
      exists post'. by rewrite list_ascii_of_string_of_list_ascii. }
    simpl. by rewrite string_of_list_ascii_of_string.
Qed.

Lemma re_search_no_match (text : string) :
  re_search org_id_pattern text = None ↔ ¬ has_match text.
Proof.
  split.
  - intros E (pre & id & post & Hs & Hm). unfold re_search in E.
    destruct (search_from _ _ _) as [m|] eqn:E'; [done|].
    by apply (search_from_org_id_none _ [] E' pre _ post Hs).
  - intros Hno. destruct (re_search org_id_pattern text) as [id|] eqn:E; [|done].
    apply re_search_first_match in E as (pre & Hocc & _).
    destruct Hno. by exists pre, id.
Qed.

(** ** The Identifier Extractor *)

(** The two files search a block's text differently ([re.search],
    [re.findall] and its first element) and find the same. *)
Lemma scan_blocks_agree (blocks : list json) :
  Ingestor.scan_blocks blocks = DataExtractor.scan_blocks blocks.
Proof.
  induction blocks as [|block rest IH]; [done|]. simpl.
  destruct (py_getitem block (JStr "type")) as [block_type|]; [|done]. simpl.
  destruct (py_getitem block block_type) as [block_data|]; [|done]. simpl.
  destruct (py_in_strings block_type recognized_types); [|done].
  destruct (py_get block_data "rich_text" (JArr [])) as [rich_text|]; [|done].
  simpl. destruct (join_field "plain_text" rich_text) as [text|]; [|done]. simpl.
  rewrite <- re_findall_head, IH. by destruct (re_findall org_id_pattern text).
Qed.

Lemma extract_org_id_agree (blocks : json) :
  Ingestor.extract_org_id_from_blocks blocks
  = DataExtractor.extract_org_id_from_blocks blocks.
Proof.
  unfold Ingestor.extract_org_id_from_blocks,
    DataExtractor.extract_org_id_from_blocks.
  destruct (py_get blocks "results" (JArr [])) as [results|]; [|done]. simpl.
  destruct (py_iter results) as [items|]; [|done]. simpl.
  apply scan_blocks_agree.
Qed.

Lemma py_in_strings_elem_of (s : string) (l : list string) :
  py_in_strings (JStr s) l = true ↔ s ∈ l.
Proof.
  simpl. rewrite existsb_exists, list_elem_of_In. split.
  - intros (x & Hx & Heq). apply String.eqb_eq in Heq. by subst.
  - intros Hs. exists s. split; [done|]. apply String.eqb_refl.
Qed.

(** The comprehension over well-formed spans, joined, is the concatenation of
    their plain texts. *)
Lemma join_field_spans (spans : list json) (rs : list string) :
  Forall2 span_of spans rs →
  join_field "plain_text" (JArr spans) = Val (foldr String.append "" rs).
Proof.
  unfold join_field. simpl. intros H.
  assert (exc_map (λ part, py_getitem part (JStr "plain_text")) spans
          = Val (map JStr rs)) as ->.
  { induction H as [|span r spans rs (fields & -> & Hf) _ IH]; [done|].
    simpl. rewrite Hf. simpl. by rewrite IH. }
  simpl. clear H. induction rs as [|r rs IH]; [done|]. simpl. by rewrite IH.
Qed.

(** One turn of the extractor's loop on a well-formed block. *)
Lemma scan_blocks_cons (j : json) (b : Block) (rest : list json) :
  block_of j b →
  DataExtractor.scan_blocks (j :: rest) =
    if decide (recognized b) then
      match re_search org_id_pattern (block_text b) with
      | Some m => Val (Some m)
      | None => DataExtractor.scan_blocks rest
      end
    else DataExtractor.scan_blocks rest.
Proof.
  intros (fields & data & -> & Hty & Hdata & Hrt).
  cbn [DataExtractor.scan_blocks py_getitem]. rewrite Hty. cbn [exc_bind].
  rewrite Hdata. cbn [exc_bind].
  destruct (decide (recognized b)) as [Hrec|Hrec].
  - pose proof Hrec as Hin. apply py_in_strings_elem_of in Hin. rewrite Hin.
    destruct (Hrt Hrec) as (dfields & -> & Hspans). cbn [py_get].
    destruct (dict_lookup "rich_text" dfields) as [[| | | |spans|]|];
      try done; cbn [exc_bind].
    + by rewrite (join_field_spans _ _ Hspans).
    + unfold block_text. by rewrite Hspans.
  - destruct (py_in_strings (JStr (variant b)) recognized_types) eqn:Hin; [|done].
    by apply py_in_strings_elem_of in Hin.
Qed.

(** On well-formed blocks the loop returns, and what it returns is the
    earliest identifier. *)
Lemma scan_blocks_earliest (items : list json) (bs : list Block) :
  Forall2 block_of items bs →
  ∃ r, DataExtractor.scan_blocks items = Val r ∧ earliest_identifier bs r.
Proof.
  induction 1 as [|j b items bs Hb _ (r & Hr & Hspec)].
  { exists None. split; [done|]. constructor. }
  rewrite (scan_blocks_cons _ _ _ Hb).
  destruct (decide (recognized b)) as [Hrec|Hrec].
  - destruct (re_search org_id_pattern (block_text b)) as [id|] eqn:E.
    + exists (Some id). split; [done|]. exists [], b, bs.
      repeat split; [done| |constructor]. by apply re_search_first_match.
    + apply re_search_no_match in E. exists r. split; [done|].
      destruct r as [id|]; simpl in *.
      * destruct Hspec as (pre & b' & post & -> & Hrec' & Hfirst & Hpre).
        exists (b :: pre), b', post. repeat split; [done..|].
        by constructor.
      * by constructor.
  - exists r. split; [done|]. destruct r as [id|]; simpl in *.
    + destruct Hspec as (pre & b' & post & -> & Hrec' & Hfirst & Hpre).
      exists (b :: pre), b', post. repeat split; [done..|].
      by constructor.
    + by constructor.
Qed.

Lemma first_match_has_match (text id : string) :
  first_match text id → has_match text.
Proof. intros (pre & Hocc & _). by exists pre, id. Qed.

(** A text has one earliest match. *)
Lemma first_match_unique (text id1 id2 : string) :
  first_match text id1 → first_match text id2 → id1 = id2.
Proof.
  intros (pre1 & Hocc1 & Hmin1) (pre2 & Hocc2 & Hmin2).
  pose proof (Hmin1 _ _ Hocc2). pose proof (Hmin2 _ _ Hocc1).
  destruct Hocc1 as (post1 & Hs1 & Hm1 & _), Hocc2 as (post2 & Hs2 & Hm2 & _).
  rewrite Hs1 in Hs2. apply app_inj_1 in Hs2 as [_ Hs2]; [|lia].
  apply uuid_shape_length in Hm1, Hm2.
  apply app_inj_1 in Hs2 as [Hs2 _]; [|congruence].
  rewrite <- (string_of_list_ascii_of_string id1),
    <- (string_of_list_ascii_of_string id2). by rewrite Hs2.
Qed.

(** The sentence on the Identifier Extractor leaves one result for a
    sequence of blocks. *)
Lemma earliest_identifier_unique (bs : list Block) (r1 r2 : option string) :
  earliest_identifier bs r1 → earliest_identifier bs r2 → r1 = r2.
Proof.
  assert (Hsome_none : ∀ id, earliest_identifier bs (Some id) →
                             earliest_identifier bs None → False).
  { intros id (pre & b & post & -> & Hrec & Hfirst & _) Hnone.
    unfold earliest_identifier, no_match_in in Hnone.
    rewrite Forall_forall in Hnone.
    apply (Hnone b); [|done|by eapply first_match_has_match].
    apply elem_of_app. right. apply elem_of_cons. by left. }
  assert (Hlt : ∀ pre1 b1 post1 pre2 b2 post2 id1,
            pre1 ++ b1 :: post1 = pre2 ++ b2 :: post2 →
            recognized b1 → first_match (block_text b1) id1 →
            no_match_in pre2 → ¬ length pre1 < length pre2).
  { intros pre1 b1 post1 pre2 b2 post2 id1 Heq Hrec Hfirst Hpre2 Hlen.
    assert (pre2 !! length pre1 = Some b1) as Hin.
    { rewrite <- (lookup_app_l pre2 (b2 :: post2)) by done.
      rewrite <- Heq. by apply list_lookup_middle. }
    apply list_elem_of_lookup_2 in Hin.
    unfold no_match_in in Hpre2. rewrite Forall_forall in Hpre2.
    apply (Hpre2 b1); [done..|]. by eapply first_match_has_match. }
  destruct r1 as [id1|], r2 as [id2|]; intros H1 H2; try done.
  - destruct H1 as (pre1 & b1 & post1 & Heq1 & Hrec1 & Hfirst1 & Hpre1).
    destruct H2 as (pre2 & b2 & post2 & Heq2 & Hrec2 & Hfirst2 & Hpre2).
    rewrite Heq1 in Heq2.
    pose proof (Hlt _ _ _ _ _ _ _ Heq2 Hrec1 Hfirst1 Hpre2).
    pose proof (Hlt _ _ _ _ _ _ _ (eq_sym Heq2) Hrec2 Hfirst2 Hpre1).
    apply app_inj_1 in Heq2 as [_ [= <- _]]; [|lia].
    f_equal. by eapply first_match_unique.
  - by destruct (Hsome_none _ H1 H2).
  - by destruct (Hsome_none _ H2 H1).
Qed.

(** C3: for every sequence of well-formed Content Blocks, the extractor of
    either file returns, without raising, the identifier that occurs earliest
    in the earliest recognized block whose concatenated runs contain a match
    of the 8-4-4-4-12 pattern; unrecognized blocks do not contribute; the
    result is none when no recognized block has a match. *)
Theorem extractor_returns_earliest_identifier
    (blocks : json) (fields : list (string * json)) (items : list json)
    (bs : list Block) :
  blocks = JObj fields →
  dict_lookup "results" fields = Some (JArr items) →
  Forall2 block_of items bs →
  ∃ r, DataExtractor.extract_org_id_from_blocks blocks = Val r
       ∧ Ingestor.extract_org_id_from_blocks blocks = Val r
       ∧ earliest_identifier bs r.
Proof.
  intros -> Hres Hbs.
  destruct (scan_blocks_earliest _ _ Hbs) as (r & Hr & Hspec).
  exists r. rewrite extract_org_id_agree.
  unfold DataExtractor.extract_org_id_from_blocks. simpl. rewrite Hres. simpl.
  done.
Qed.

Lemma extractor_returns_earliest_identifier_witness :
  ∃ r, DataExtractor.extract_org_id_from_blocks sample_blocks_json = Val r
       ∧ Ingestor.extract_org_id_from_blocks sample_blocks_json = Val r
       ∧ earliest_identifier sample_blocks r.
Proof.
  apply (extractor_returns_earliest_identifier sample_blocks_json _
           (map (λ b, block_json (variant b) (runs b)) sample_blocks)
           sample_blocks eq_refl eq_refl).
  repeat constructor; eexists _, _; (split; [reflexivity|]);
    (split; [reflexivity|]); (split; [reflexivity|]); intros _;
    eexists; (split; [reflexivity|]); simpl;
    repeat constructor; eexists; split; reflexivity.
Defined.

Example extractor_sample :
  DataExtractor.extract_org_id_from_blocks sample_blocks_json = Val (Some sample_id)
  ∧ Ingestor.extract_org_id_from_blocks sample_blocks_json = Val (Some sample_id).
Proof. split; vm_compute; reflexivity. Qed.

(** Blocks on which the loop neither returns nor raises are passed over. *)
Lemma scan_blocks_app (pre rest : list json) :
  DataExtractor.scan_blocks pre = Val None →
  DataExtractor.scan_blocks (pre ++ rest) = DataExtractor.scan_blocks rest.
Proof.
  induction pre as [|block pre IH]; [done|]. simpl.
  destruct (py_getitem block (JStr "type")) as [block_type|]; [|done]. simpl.
  destruct (py_getitem block block_type) as [block_data|]; [|done]. simpl.
  destruct (py_in_strings block_type recognized_types); [|done].
  destruct (py_get block_data "rich_text" (JArr [])) as [rich_text|]; [|done].
  simpl. destruct (join_field "plain_text" rich_text) as [text|]; [|done]. simpl.
  by destruct (re_search org_id_pattern text).
Qed.

Lemma extract_results (extra : list (string * json)) (items : list json) :
  DataExtractor.extract_org_id_from_blocks (JObj (("results", JArr items) :: extra))
  = DataExtractor.scan_blocks items.
Proof. done. Qed.

(** C10, as the code has it: a block the loop reaches (no earlier block
    returned an identifier or raised) is read at ['type'] and at the field
    that ['type'] names before the variant is tested, so a dictionary without
    ['type'], or without the field its ['type'] names (recognized or not),
    makes either extractor raise [KeyError]; a recognized block whose data
    has no ['rich_text'] is passed over like a block with empty text. *)
Theorem extractor_reads_type_field_first
    (pre post : list json) (fields : list (string * json)) :
  DataExtractor.scan_blocks pre = Val None →
  let blocks := JObj [("results", JArr (pre ++ JObj fields :: post))] in
  (dict_lookup "type" fields = None
   ∨ (∃ ty, dict_lookup "type" fields = Some (JStr ty)
            ∧ dict_lookup ty fields = None) →
   DataExtractor.extract_org_id_from_blocks blocks = Err KeyError
   ∧ Ingestor.extract_org_id_from_blocks blocks = Err KeyError)
  ∧ (∀ ty dfields,
       ty ∈ recognized_types →
       dict_lookup "type" fields = Some (JStr ty) →
       dict_lookup ty fields = Some (JObj dfields) →
       dict_lookup "rich_text" dfields = None →
       DataExtractor.extract_org_id_from_blocks blocks
       = DataExtractor.extract_org_id_from_blocks (JObj [("results", JArr (pre ++ post))])
       ∧ Ingestor.extract_org_id_from_blocks blocks
         = Ingestor.extract_org_id_from_blocks (JObj [("results", JArr (pre ++ post))])).
Proof.
  intros Hpre blocks. subst blocks. rewrite !extract_org_id_agree, !extract_results.
  rewrite !(scan_blocks_app _ _ Hpre). split.
  - intros [Hty|(ty & Hty & Hdata)]; cbn [DataExtractor.scan_blocks py_getitem];
      rewrite Hty; cbn [exc_bind]; [done|]. by rewrite Hdata.
  - intros ty dfields Hrec Hty Hdata Hrt.
    cbn [DataExtractor.scan_blocks py_getitem]. rewrite Hty. cbn [exc_bind].
    rewrite Hdata. cbn [exc_bind].
    apply py_in_strings_elem_of in Hrec. rewrite Hrec.
    cbn [py_get]. rewrite Hrt. done.
Qed.

Lemma extractor_reads_type_field_first_witness :
  DataExtractor.extract_org_id_from_blocks
    (JObj [("results", JArr ([block_json "image" []] ++ JObj [("object", JStr "block")]
                             :: [block_json "paragraph" [sample_id]]))])
  = Err KeyError
  ∧ DataExtractor.extract_org_id_from_blocks
      (JObj [("results",
              JArr ([block_json "image" []]
                    ++ JObj [("type", JStr "paragraph"); ("paragraph", JObj [])]
                    :: [block_json "paragraph" [sample_id]]))])
    = DataExtractor.extract_org_id_from_blocks
        (JObj [("results", JArr ([block_json "image" []]
                                 ++ [block_json "paragraph" [sample_id]]))]).
Proof.
  split.
  - apply (extractor_reads_type_field_first [block_json "image" []]
             [block_json "paragraph" [sample_id]] [("object", JStr "block")]
             eq_refl).
    left. reflexivity.
  - apply (proj2 (extractor_reads_type_field_first [block_json "image" []]
                    [block_json "paragraph" [sample_id]]
                    [("type", JStr "paragraph"); ("paragraph", JObj [])]
                    eq_refl) "paragraph" []);
      [apply list_elem_of_here|reflexivity..].
Defined.

(** C10 as stated fails: a block without ['type'] that comes after the block
    that holds the identifier is never read, and the extractor returns. *)
Lemma extractor_untyped_block_not_reached :
  JObj [("object", JStr "block")] ∈ blocks_then_untyped
  ∧ dict_lookup "type" [("object", JStr "block")] = None
  ∧ DataExtractor.extract_org_id_from_blocks
      (JObj [("results", JArr blocks_then_untyped)]) = Val (Some sample_id)
  ∧ Ingestor.extract_org_id_from_blocks
      (JObj [("results", JArr blocks_then_untyped)]) = Val (Some sample_id).
Proof.
  split; [|split; [reflexivity|split; vm_compute; reflexivity]].
  unfold blocks_then_untyped. apply list_elem_of_In. right. left. reflexivity.
Qed.

(** ** Computations with effects *)

Lemma bind_Ok {W A B} (c : M W A) (k : A → M W B) (e e' : Env W) (b : B) :
  bind c k e = Ok b e' ↔ ∃ a e1, c e = Ok a e1 ∧ k a e1 = Ok b e'.
Proof.
  unfold bind. destruct (c e) as [a e1| |]; split; try done.
  - eauto.
  - by intros (? & ? & [= <- <-] & ?).
  - by intros (? & ? & ? & _).
  - by intros (? & ? & ? & _).
Qed.

Lemma lift_Ok {W A} (c : Exc A) (e e' : Env W) (a : A) :
  lift c e = Ok a e' ↔ c = Val a ∧ e' = e.
Proof.
  unfold lift. destruct c; split; try done.
  - by intros [= <- <-].
  - by intros [[= <-] ->].
  - by intros [? _].
Qed.

Lemma lift_Val {W A} (a : A) (e : Env W) : lift (Val a) e = Ok a e.
Proof. done. Qed.

Lemma bind_lift_Val {W A B} (c : Exc A) (a : A) (k : A → M W B) (e : Env W) :
  c = Val a → bind (lift c) k e = k a e.
Proof. by intros ->. Qed.

(** The loop over the items of a page, in two parts. *)
Lemma extractor_card_loop_app {W} (host : Host W) (pre rest : list json) :
  ∀ acc e,
    DataExtractor.card_loop host (pre ++ rest) acc e
    = bind (DataExtractor.card_loop host pre acc)
           (DataExtractor.card_loop host rest) e.
Proof.
  induction pre as [|item pre IH]; intros acc e; [done|].
  simpl. unfold bind.
  destruct (DataExtractor.card_step host item acc e); [|done..].
  by rewrite IH.
Qed.

Lemma ingestor_card_loop_app {W} (host : Host W) (ids : gset string)
    (pre rest : list json) :
  ∀ acc e,
    Ingestor.card_loop host ids (pre ++ rest) acc e
    = bind (Ingestor.card_loop host ids pre acc)
           (Ingestor.card_loop host ids rest) e.
Proof.
  induction pre as [|item pre IH]; intros acc e; [done|].
  simpl. unfold bind.
  destruct (Ingestor.card_step host ids item acc e); [|done..].
  by rewrite IH.
Qed.

Lemma target_set_filled (item : json) :
  target_set item →
  ∃ properties orga,
    py_get item "properties" (JObj []) = Val properties
    ∧ py_get properties "ORGA ID*" (JObj []) = Val orga
    ∧ target_filled orga = Val true.
Proof.
  intros (fields & props & ofields & span & spans & -> & Hp & Ho & Hr).
  exists (JObj props), (JObj ofields). simpl. rewrite Hp, Ho.
  repeat split. unfold target_filled.
  destruct ofields as [|kv ofields]; [done|].
  cbn [truthy py_get]. by rewrite Hr.
Qed.

Lemma extractor_step_filled {W} (host : Host W) (item : json)
    (acc : list CardInfo) (e : Env W) :
  target_set item → DataExtractor.card_step host item acc e = Ok acc e.
Proof.
  intros (properties & orga & Hp & Ho & Hf)%target_set_filled.
  unfold DataExtractor.card_step.
  rewrite (bind_lift_Val _ _ _ _ Hp), (bind_lift_Val _ _ _ _ Ho),
    (bind_lift_Val _ _ _ _ Hf). done.
Qed.

Lemma ingestor_step_filled {W} (host : Host W) (ids : gset string) (item : json)
    (acc : list CardInfo) (e : Env W) :
  target_set item → Ingestor.card_step host ids item acc e = Ok acc e.
Proof.
  intros (properties & orga & Hp & Ho & Hf)%target_set_filled.
  unfold Ingestor.card_step.
  rewrite (bind_lift_Val _ _ _ _ Hp), (bind_lift_Val _ _ _ _ Ho),
    (bind_lift_Val _ _ _ _ Hf). done.
Qed.

(** C5: in both variants a card whose ['ORGA ID*'] already holds non-empty
    rich text leaves the list of records and the environment as they are (no
    request is sent, so no blocks are fetched for it); a page behaves as it
    would without the card. *)
Theorem filled_card_is_skipped {W} (host : Host W) (ids : gset string)
    (item : json) (pre post : list json) (acc : list CardInfo) (e : Env W) :
  target_set item →
  DataExtractor.card_step host item acc e = Ok acc e
  ∧ Ingestor.card_step host ids item acc e = Ok acc e
  ∧ DataExtractor.card_loop host (pre ++ item :: post) acc e
    = DataExtractor.card_loop host (pre ++ post) acc e
  ∧ Ingestor.card_loop host ids (pre ++ item :: post) acc e
    = Ingestor.card_loop host ids (pre ++ post) acc e.
Proof.
  intros Hset. split; [by apply extractor_step_filled|].
  split; [by apply ingestor_step_filled|]. split.
  - rewrite !extractor_card_loop_app. unfold bind.
    destruct (DataExtractor.card_loop host pre acc e) as [acc1 e1| |]; [|done..].
    simpl. unfold bind at 1. by rewrite extractor_step_filled.
  - rewrite !ingestor_card_loop_app. unfold bind.
    destruct (Ingestor.card_loop host ids pre acc e) as [acc1 e1| |]; [|done..].
    simpl. unfold bind at 1. by rewrite ingestor_step_filled.
Qed.

Lemma filled_card_is_skipped_witness :
  DataExtractor.card_step scripted_host (card card_id "Acme" (rich sample_id))
    [] (start writing_run ∅) = Ok [] (start writing_run ∅).
Proof.
  apply (filled_card_is_skipped scripted_host ∅
           (card card_id "Acme" (rich sample_id)) [] [] [] (start writing_run ∅)).
  eexists _, _, _, _, _. split; [reflexivity|]. split; [reflexivity|].
  split; reflexivity.
Defined.

(** ** The Processed-ID Set *)

Lemma target_unset_not_filled (item : json) :
  target_unset item →
  ∃ properties orga,
    py_get item "properties" (JObj []) = Val properties
    ∧ py_get properties "ORGA ID*" (JObj []) = Val orga
    ∧ target_filled orga = Val false.
Proof.
  intros (fields & props & -> & Hp & Ho). simpl. rewrite Hp.
  exists (JObj props). simpl.
  destruct Ho as [Ho|(ofields & Ho & Hr)]; rewrite Ho.
  - by exists (JObj []).
  - exists (JObj ofields). repeat split. unfold target_filled.
    destruct ofields as [|kv ofields]; [done|]. cbn [truthy py_get].
    by destruct Hr as [-> | ->].
Qed.

(** A card whose identifier is in the Processed-ID Set is skipped before any
    request is sent for it. *)
Lemma processed_card_is_skipped {W} (host : Host W) (ids : gset string)
    (item : json) (id : string) (acc : list CardInfo) (e : Env W) :
  target_unset item → card_has_id item id → id ∈ ids →
  Ingestor.card_step host ids item acc e = Ok acc e.
Proof.
  intros (properties & orga & Hp & Ho & Hf)%target_unset_not_filled
    (fields & -> & Hid) Hin.
  unfold Ingestor.card_step.
  rewrite (bind_lift_Val _ _ _ _ Hp), (bind_lift_Val _ _ _ _ Ho),
    (bind_lift_Val _ _ _ _ Hf).
  cbn [py_getitem]. rewrite Hid. unfold bind at 1. rewrite lift_Val.
  unfold bind at 1. cbn [Ingestor.py_in_set]. rewrite lift_Val.
  by rewrite bool_decide_eq_true_2.
Qed.

(** ** The link of a record and the Processed-ID Set *)

Lemma list_ascii_of_string_app (a b : string) :
  list_ascii_of_string (a +:+ b) = list_ascii_of_string a ++ list_ascii_of_string b.
Proof. induction a as [|c a IH]; [done|]. simpl. by rewrite IH. Qed.


Lemma at_end_long (c : ascii) (l : list ascii) : l ≠ [] → at_end (c :: l) = false.
Proof. by destruct l. Qed.

(** The greedy [+] followed by [$] takes a whole text that has no slash. *)
Lemma many_not_slash_all (s : list ascii) :
  ∀ prev, Forall (λ c, not_slash c = true) s →
          many not_slash (match_here [End_]) prev s = Some s.
Proof.
  induction s as [|c s IH]; intros prev Hs; [done|].
  apply Forall_cons in Hs as [Hc Hs]. simpl. rewrite Hc. by rewrite IH.
Qed.

Lemma last_segment_here (prev : option ascii) (seg : list ascii) :
  seg ≠ [] → Forall (λ c, not_slash c = true) seg →
  match_here last_segment_pattern prev seg = Some seg.
Proof.
  intros Hne Hseg. destruct seg as [|c seg]; [done|].
  apply Forall_cons in Hseg as [Hc Hseg].
  unfold last_segment_pattern. cbn [match_here]. rewrite Hc.
  by rewrite many_not_slash_all.
Qed.

(** Before a slash that is not the last character [$] holds nowhere. *)
Lemma many_before_slash (rest : list ascii) (s : list ascii) :
  rest ≠ [] →
  ∀ prev, many not_slash (match_here [End_]) prev (s ++ "/"%char :: rest) = None.
Proof.
  intros Hne. induction s as [|c s IH]; intros prev; cbn [app many].
  - change (not_slash "/") with false. cbn [match_here].
    by rewrite (at_end_long _ _ Hne).
  - rewrite IH. cbn [match_here]. rewrite at_end_long; [by destruct (not_slash c)|].
    by destruct s.
Qed.

Lemma last_segment_not_here (prev : option ascii) (s rest : list ascii) :
  rest ≠ [] →
  match_here last_segment_pattern prev (s ++ "/"%char :: rest) = None.
Proof.
  intros Hne. unfold last_segment_pattern.
  destruct s as [|c s]; cbn [app match_here]; [done|].
  destruct (not_slash c); [|done]. by rewrite many_before_slash.
Qed.

Lemma last_segment_search (s seg : list ascii) :
  seg ≠ [] → Forall (λ c, not_slash c = true) seg →
  ∀ prev, search_from last_segment_pattern prev (s ++ "/"%char :: seg) = Some seg.
Proof.
  intros Hne Hseg. induction s as [|c s IH]; intros prev.
  - pose proof (last_segment_not_here prev [] seg Hne) as Hno.
    cbn [app] in *. cbn [search_from]. rewrite Hno.
    destruct seg as [|c seg]; [done|]. cbn [search_from].
    by rewrite last_segment_here.
  - pose proof (last_segment_not_here prev (c :: s) seg Hne) as Hno.
    cbn [app] in *. cbn [search_from]. rewrite Hno. apply IH.
Qed.

(** The identifier kept for a link: what follows its last slash. *)
Lemma last_segment_of_link (base seg : string) :
  seg ≠ "" → Forall (λ c, not_slash c = true) (list_ascii_of_string seg) →
  re_search last_segment_pattern (base +:+ "/" +:+ seg) = Some seg.
Proof.
  intros Hne Hseg. unfold re_search.
  rewrite !list_ascii_of_string_app. cbn [list_ascii_of_string app].
  rewrite last_segment_search; [|by destruct seg|done].
  simpl. by rewrite string_of_list_ascii_of_string.
Qed.

Lemma remove_char_absent (old : ascii) (s : string) :
  old ∉ list_ascii_of_string (remove_char old s).
Proof.
  induction s as [|c s IH]; simpl; [apply not_elem_of_nil|].
  destruct (Ascii.eqb c old) eqn:E; [done|]. simpl.
  apply not_elem_of_cons. split; [|done].
  intros ->. by rewrite Ascii.eqb_refl in E.
Qed.

(** The set loaded from a file that holds the record of the card [id]: the
    identifier without its hyphens. *)
Lemma processed_of_record (id title org_id : string) :
  remove_char "-" id ≠ "" →
  Forall (λ c, not_slash c = true) (list_ascii_of_string (remove_char "-" id)) →
  Ingestor.processed_of [record_of id title org_id] = {[ remove_char "-" id ]}.
Proof.
  intros Hne Hslash. unfold Ingestor.processed_of, record_of. simpl.
  change ("https://www.notion.so/" +:+ remove_char "-" id)
    with ("https://www.notion.so" +:+ "/" +:+ remove_char "-" id).
  rewrite (last_segment_of_link _ _ Hne Hslash). simpl.
  by rewrite (right_id_L ∅ (∪)).
Qed.

(** The slip behind C1: the identifier of a card that has a hyphen is not in
    the set loaded from the card's own record; an identifier without hyphens
    is. *)
Lemma hyphenated_id_not_processed (id title org_id : string) :
  remove_char "-" id ≠ "" →
  Forall (λ c, not_slash c = true) (list_ascii_of_string (remove_char "-" id)) →
  (id ∈ Ingestor.processed_of [record_of id title org_id]
   ↔ "-"%char ∉ list_ascii_of_string id).
Proof.
  intros Hne Hslash. rewrite (processed_of_record _ _ _ Hne Hslash).
  rewrite elem_of_singleton. split.
  - intros Heq. rewrite Heq. apply remove_char_absent.
  - intros Hno. clear Hne Hslash. induction id as [|c id IH]; [done|].
    simpl in *. apply not_elem_of_cons in Hno as [Hc Hno].
    destruct (Ascii.eqb c "-") eqn:E.
    + apply Ascii.eqb_eq in E. by subst.
    + f_equal. by apply IH.
Qed.

(** C1, at a card the service can list: a first run writes the card's
    record to the export file; the next run, started on that file, lists the
    same card with an empty target field and does not skip it: the link keeps
    the identifier without its hyphens, the membership test uses the
    identifier with them, and the card's blocks are fetched and its field
    written again. *)
Theorem exported_card_is_not_skipped :
  ∃ e1 e2,
    Ingestor.main scripted_host 3 (start writing_run ∅) = Ok tt e1
    ∧ files e1 = {[ export_path := [sample_record] ]}
    ∧ Ingestor.processed_of [sample_record]
      = {[ "598337872cf94fdf8782e53db20768a5" ]}
    ∧ Ingestor.main scripted_host 3 (start writing_run (files e1)) = Ok tt e2
    ∧ requests_made e2 =
        [("POST", "https://api.notion.com/v1/databases/db/query");
         ("POST", "https://api.notion.com/v1/databases/db/query");
         ("GET", "https://api.notion.com/v1/blocks/" +:+ card_id +:+ "/children");
         ("PATCH", "https://api.notion.com/v1/pages/" +:+ card_id);
         ("GET", "https://api.notion.com/v1/pages/" +:+ card_id)].
Proof.
  eexists _, _. split; [vm_compute; reflexivity|].
  split; [vm_compute; reflexivity|]. split; [vm_compute; reflexivity|].
  split; vm_compute; reflexivity.
Qed.

(** C4, on a page of three cards: the card with the target field set and (in
    the write-back variant) the card found in the export file leave the
    progress bar where it is; only the card that is processed advances it. *)
Theorem skipped_cards_do_not_advance_progress :
  length mixed_page = 3
  ∧ (∃ e, DataExtractor.main scripted_host 3 (start mixed_run ∅) = Ok tt e
          ∧ bar_n (bar e) = 2)
  ∧ (∃ e, Ingestor.main scripted_host 3 (start mixed_run earlier_export) = Ok tt e
          ∧ bar_n (bar e) = 1).
Proof.
  split; [reflexivity|].
  split; eexists; (split; [vm_compute; reflexivity|]); vm_compute; reflexivity.
Qed.

(** ** Write, then verify *)

(** The update returns, unless the answer to a failed update has a body that
    is not JSON. *)
Lemma update_card_property_returns {W} (host : Host W) (page_id org_id : string)
    (e : Env W) :
  (∃ b e', Ingestor.update_card_property host page_id org_id e = Ok b e')
  ∨ ∃ e', Ingestor.update_card_property host page_id org_id e
          = Raise JSONDecodeError e'.
Proof.
  unfold Ingestor.update_card_property, bind, request.
  destruct (send host _ (world e)) as [rs w'].
  destruct (negb (status_code rs =? 200)%Z); simpl; [|eauto].
  unfold lift, resp_json. destruct (body rs); simpl; eauto.
Qed.

(** The verification says yes only when the card, read again, holds exactly
    the expected text in its target field. *)
Lemma verify_card_property_true {W} (host : Host W) (page_id expected : string)
    (e e' : Env W) :
  Ingestor.verify_card_property host page_id expected e = Ok true e' →
  ∃ rs w' page properties orga spans,
    send host (reread host page_id) (world e) = (rs, w')
    ∧ status_code rs = 200%Z
    ∧ resp_json rs = Val page
    ∧ py_get page "properties" (JObj []) = Val properties
    ∧ py_get properties "ORGA ID*" (JObj []) = Val orga
    ∧ py_getitem orga (JStr "rich_text") = Val spans
    ∧ join_field "plain_text" spans = Val expected.
Proof.
  unfold Ingestor.verify_card_property. intros H.
  apply bind_Ok in H as (rs & e1 & Hrq & H).
  unfold request in Hrq. fold (reread host page_id) in Hrq.
  destruct (send host (reread host page_id) (world e)) as [rs0 w'] eqn:Hsend.
  injection Hrq as -> <-.
  destruct (status_code rs =? 200)%Z eqn:Hst; simpl in H.
  2:{ apply bind_Ok in H as (? & ? & _ & H).
      apply bind_Ok in H as (? & ? & _ & H). done. }
  apply Z.eqb_eq in Hst.
  apply bind_Ok in H as (page & ? & [Hj ->]%lift_Ok & H).
  apply bind_Ok in H as (properties & ? & [Hp ->]%lift_Ok & H).
  apply bind_Ok in H as (orga & ? & [Ho ->]%lift_Ok & H).
  apply bind_Ok in H as (filled & ? & [Hf ->]%lift_Ok & H).
  destruct filled; [|done].
  apply bind_Ok in H as (spans & ? & [Hs ->]%lift_Ok & H).
  apply bind_Ok in H as (text & ? & [Ht ->]%lift_Ok & H).
  destruct (String.eqb text expected) eqn:Heq; [|done].
  apply String.eqb_eq in Heq as ->.
  by exists rs, w', page, properties, orga, spans.
Qed.

(** What the loop body does for a card that reaches the write step. *)
Lemma card_step_at_write {W} (host : Host W) (ids : gset string) (item : json)
    (e : Env W) (page_id title org_id : string) (e1 : Env W)
    (acc : list CardInfo) :
  reaches_write host ids item e page_id title org_id e1 →
  Ingestor.card_step host ids item acc e =
    (let* card_info_list :=
       (let* updated := Ingestor.update_card_property host page_id org_id in
        if updated then
          let* verified := Ingestor.verify_card_property host page_id org_id in
          if verified then
            let* _ := print (Text ("Card " +:+ page_id
              +:+ "'s 'ORGA ID*' was updated with organization ID "
              +:+ org_id +:+ ".")) in
            ret (acc ++ [record_of page_id title org_id])
          else
            let* _ := print (Text ("Failed to verify 'ORGA ID*' for card "
                                   +:+ page_id +:+ ".")) in
            ret acc
        else
          let* _ := print (Text ("Failed to update 'ORGA ID*' for card "
                                 +:+ page_id +:+ ".")) in
          ret acc) in
     let* _ := bar_update in
     let* _ := bar_describe in
     ret card_info_list) e1.
Proof.
  intros (Hunset & (fields & -> & Hid) & Hnot & (properties' & Hp' & Htitle)
          & blocks & Hblocks & Htruthy & Hext & Hne).
  apply target_unset_not_filled in Hunset as (properties & orga & Hp & Ho & Hf).
  rewrite Hp in Hp'. injection Hp' as <-.
  unfold Ingestor.card_step.
  rewrite (bind_lift_Val _ _ _ _ Hp), (bind_lift_Val _ _ _ _ Ho),
    (bind_lift_Val _ _ _ _ Hf).
  cbn [py_getitem]. rewrite Hid. unfold bind at 1. rewrite lift_Val.
  unfold bind at 1. cbn [Ingestor.py_in_set]. rewrite lift_Val.
  rewrite bool_decide_eq_false_2 by done.
  rewrite (bind_lift_Val _ _ _ _ Htitle).
  unfold bind at 1. rewrite Hblocks. rewrite Htruthy.
  rewrite (bind_lift_Val _ _ _ _ Hext).
  unfold found. destruct (String.eqb org_id "") eqn:Heq.
  { by apply String.eqb_eq in Heq. }
  done.
Qed.

(** C2: in the write-back variant a card that reaches the write step gets
    its record appended if and only if the update call returns true and the
    verification that follows returns true; in every other case the list of
    records is left as it was; and the verification returns true only when
    the card, read again, has in its target field runs whose concatenated
    plain text is exactly the expected identifier. *)
Theorem recorded_iff_written_and_verified {W} (host : Host W)
    (ids : gset string) (item : json) (e : Env W)
    (page_id title org_id : string) (e1 : Env W) (acc : list CardInfo) :
  reaches_write host ids item e page_id title org_id e1 →
  ((∃ e', Ingestor.card_step host ids item acc e
          = Ok (acc ++ [record_of page_id title org_id]) e')
   ↔ ∃ e2 e3,
       Ingestor.update_card_property host page_id org_id e1 = Ok true e2
       ∧ Ingestor.verify_card_property host page_id org_id e2 = Ok true e3)
  ∧ (∀ acc' e',
       Ingestor.card_step host ids item acc e = Ok acc' e' →
       acc' = acc ++ [record_of page_id title org_id] ∨ acc' = acc)
  ∧ (∀ e2 e3,
       Ingestor.verify_card_property host page_id org_id e2 = Ok true e3 →
       ∃ rs w' page properties orga spans,
         send host (reread host page_id) (world e2) = (rs, w')
         ∧ status_code rs = 200%Z
         ∧ resp_json rs = Val page
         ∧ py_get page "properties" (JObj []) = Val properties
         ∧ py_get properties "ORGA ID*" (JObj []) = Val orga
         ∧ py_getitem orga (JStr "rich_text") = Val spans
         ∧ join_field "plain_text" spans = Val org_id).
Proof.
  intros Hreach. rewrite (card_step_at_write _ _ _ _ _ _ _ _ acc Hreach).
  split; [|split; [|intros e2 e3; apply verify_card_property_true]].
  - unfold bind at 1 2.
    destruct (Ingestor.update_card_property host page_id org_id e1)
      as [updated e2|x e2|] eqn:Hup;
      [|split; [by intros (? & ?)|intros (? & ? & [=] & _)]..].
    destruct updated.
    + unfold bind at 1.
      destruct (Ingestor.verify_card_property host page_id org_id e2)
        as [verified e3| |] eqn:Hver.
      * destruct verified.
        -- split; [intros _; by exists e2, e3|]. intros _. eexists. reflexivity.
        -- split.
           ++ intros (e' & [= Habs _]). apply (f_equal length) in Habs.
              rewrite length_app in Habs. simpl in Habs. lia.
           ++ intros (? & ? & [= <-] & ?). congruence.
      * split; [by intros (? & ?)|]. intros (? & ? & [= <-] & ?). congruence.
      * split; [by intros (? & ?)|]. intros (? & ? & [= <-] & ?). congruence.
    + split.
      * intros (e' & [= Habs _]). apply (f_equal length) in Habs.
        rewrite length_app in Habs. simpl in Habs. lia.
      * intros (? & ? & [=] & _).
  - intros acc' e'. unfold bind at 1 2.
    destruct (Ingestor.update_card_property host page_id org_id e1)
      as [updated e2|x e2|]; [|done..].
    destruct updated.
    + unfold bind at 1.
      destruct (Ingestor.verify_card_property host page_id org_id e2)
        as [verified e3| |]; [|done..].
      destruct verified; intros [= <- _]; auto.
    + intros [= <- _]. auto.
Qed.

Lemma recorded_iff_written_and_verified_witness :
  ∃ e',
    Ingestor.card_step scripted_host ∅ (card card_id "Acme" no_text) []
      (start (drop 2 writing_run) ∅)
    = Ok ([] ++ [record_of card_id "Acme" sample_id]) e'.
Proof.
  eapply (recorded_iff_written_and_verified scripted_host ∅
            (card card_id "Acme" no_text) (start (drop 2 writing_run) ∅)
            card_id "Acme" sample_id _ []).
  - split.
    { eexists _, _. split; [reflexivity|]. split; [reflexivity|].
      right. eexists. split; [reflexivity|]. right. reflexivity. }
    split; [eexists; split; reflexivity|].
    split; [apply not_elem_of_empty|].
    split; [eexists; split; reflexivity|].
    eexists. split; [vm_compute; reflexivity|]. split; [reflexivity|].
    split; [vm_compute; reflexivity|]. discriminate.
  - eexists _, _. split; vm_compute; reflexivity.
Defined.

(** ** What a step may change *)

Lemma quiet_refl {W} (e : Env W) : quiet e e.
Proof. done. Qed.

Lemma quiet_trans {W} (e1 e2 e3 : Env W) : quiet e1 e2 → quiet e2 e3 → quiet e1 e3.
Proof. intros [? ?] [? ?]. split; congruence. Qed.

Lemma Spec_ret {W A} (a : A) (P : A → Prop) : P a → Spec (W := W) (ret a) P.
Proof. intros HP e a' e' [= <- <-]. split; [apply quiet_refl|done]. Qed.

Lemma Spec_bind {W A B} (c : M W A) (k : A → M W B) (Q : A → Prop) (P : B → Prop) :
  Spec c Q → (∀ a, Q a → Spec (k a) P) → Spec (bind c k) P.
Proof.
  intros Hc Hk e b e' (a & e1 & H1 & H2)%bind_Ok.
  destruct (Hc _ _ _ H1) as [Hq1 HQ]. destruct (Hk _ HQ _ _ _ H2) as [Hq2 HP].
  split; [by eapply quiet_trans|done].
Qed.

Lemma Spec_weaken {W A} (c : M W A) (Q P : A → Prop) :
  Spec c Q → (∀ a, Q a → P a) → Spec c P.
Proof. intros Hc HQP e a e' H. destruct (Hc _ _ _ H). auto. Qed.

Lemma Spec_lift {W A} (c : Exc A) : Spec (W := W) (lift c) (λ a, c = Val a).
Proof. intros e a e' [-> ->]%lift_Ok. split; [apply quiet_refl|done]. Qed.

Lemma Spec_print {W} (o : out) : Spec (W := W) (print o) (λ _, True).
Proof. by intros e a e' [= <- <-]. Qed.

Lemma Spec_bar_update {W} : Spec (W := W) bar_update (λ _, True).
Proof. by intros e a e' [= <- <-]. Qed.

Lemma Spec_bar_describe {W} : Spec (W := W) bar_describe (λ _, True).
Proof. by intros e a e' [= <- <-]. Qed.

Lemma Spec_bar_close {W} : Spec (W := W) bar_close (λ _, True).
Proof. by intros e a e' [= <- <-]. Qed.

Lemma Spec_tqdm {W} (total : json) (desc : string) :
  Spec (W := W) (tqdm total desc) (λ _, True).
Proof.
  intros e a e'. unfold tqdm.
  destruct (truthy total && negb (is_number total)); [intros [=]|].
  by intros [= <- <-].
Qed.

Lemma delivered_app (l1 l2 : list (Request * Response)) :
  delivered (l1 ++ l2) = delivered l1 ++ delivered l2.
Proof. apply flat_map_app. Qed.

(** A request that is not a listing request is quiet. *)
Lemma Spec_request {W} (host : Host W) (meth u : string) (payload : option json) :
  String.eqb meth "POST" = false →
  Spec (request host meth u payload) (λ _, True).
Proof.
  intros Hm e rs e'. unfold request.
  destruct (send host _ (world e)) as [rs' w']. intros [= <- <-].
  split; [|done]. split; [done|]. simpl.
  rewrite delivered_app. simpl. rewrite Hm. simpl. by rewrite !app_nil_r.
Qed.

Lemma Spec_bind_ret {W A B} (a : A) (k : A → M W B) (P : B → Prop) :
  Spec (k a) P → Spec (bind (ret a) k) P.
Proof. intros H e. apply H. Qed.

Ltac spec_step :=
  lazymatch goal with
  | |- Spec (bind (ret _) _) _ => apply Spec_bind_ret
  | |- Spec (bind (lift _) _) _ =>
      eapply Spec_bind; [apply Spec_lift | cbv beta; intros ? ?]
  | |- Spec (bind (print _) _) _ =>
      eapply Spec_bind; [apply Spec_print | intros ? _]
  | |- Spec (bind bar_update _) _ =>
      eapply Spec_bind; [apply Spec_bar_update | intros ? _]
  | |- Spec (bind bar_describe _) _ =>
      eapply Spec_bind; [apply Spec_bar_describe | intros ? _]
  | |- Spec (bind (request _ _ _ _) _) _ =>
      eapply Spec_bind; [apply Spec_request; reflexivity | intros ? _]
  | |- Spec (bind (if ?b then _ else _) _) _ => destruct b eqn:?
  | |- Spec (bind (match ?x with _ => _ end) _) _ => destruct x eqn:?
  | |- Spec (if ?b then _ else _) _ => destruct b eqn:?
  | |- Spec (match ?x with _ => _ end) _ => destruct x eqn:?
  | |- Spec (ret _) _ => apply Spec_ret
  | |- Spec (lift (Err _)) _ => by intros ? ? ? ?
  | |- Spec (lift _) _ =>
      eapply Spec_weaken; [apply Spec_lift | cbv beta; intros ? ?]
  end.

Lemma Spec_get_page_blocks {W} (host : Host W) (page_id : string) :
  Spec (get_page_blocks host page_id) (λ _, True).
Proof. unfold get_page_blocks. repeat spec_step; done. Qed.

Lemma Spec_update_card_property {W} (host : Host W) (page_id org_id : string) :
  Spec (Ingestor.update_card_property host page_id org_id) (λ _, True).
Proof. unfold Ingestor.update_card_property. repeat spec_step; done. Qed.

Lemma Spec_verify_card_property {W} (host : Host W) (page_id org_id : string) :
  Spec (Ingestor.verify_card_property host page_id org_id) (λ _, True).
Proof. unfold Ingestor.verify_card_property. repeat spec_step; done. Qed.

(** ** One record at most for each card delivered *)

Ltac card_step_tac :=
  repeat first
    [ spec_step
    | eapply Spec_bind; [apply Spec_get_page_blocks | intros ? _]
    | eapply Spec_bind; [apply Spec_update_card_property | intros ? _]
    | eapply Spec_bind; [apply Spec_verify_card_property | intros ? _] ].

Lemma extractor_card_step_spec {W} (host : Host W) (item : json)
    (acc : list CardInfo) :
  Spec (DataExtractor.card_step host item acc)
       (λ acc', acc' = acc ∨ ∃ r, acc' = acc ++ [r] ∧ Link r = link_of item).
Proof.
  unfold DataExtractor.card_step. card_step_tac; auto.
  all: right; eexists; split; [reflexivity|]; unfold link_of;
    match goal with H : py_getitem _ _ = Val (JStr _) |- _ => rewrite H end;
    reflexivity.
Qed.

Lemma ingestor_card_step_spec {W} (host : Host W) (ids : gset string)
    (item : json) (acc : list CardInfo) :
  Spec (Ingestor.card_step host ids item acc)
       (λ acc', acc' = acc ∨ ∃ r, acc' = acc ++ [r] ∧ Link r = link_of item).
Proof.
  unfold Ingestor.card_step. card_step_tac; auto.
  all: eapply (Spec_bind _ _
         (λ acc', acc' = acc ∨ ∃ r, acc' = acc ++ [r] ∧ Link r = link_of item));
    [card_step_tac; auto | intros ? ?; card_step_tac; done].
  all: right; eexists; split; [reflexivity|]; unfold link_of;
    match goal with H : py_getitem _ _ = Val (JStr _) |- _ => rewrite H end;
    reflexivity.
Qed.

Lemma extractor_card_loop_spec {W} (host : Host W) (items : list json) :
  ∀ acc,
    Spec (DataExtractor.card_loop host items acc)
         (λ acc', ∃ new, acc' = acc ++ new
                         ∧ map Link new `sublist_of` map link_of items).
Proof.
  induction items as [|item items IH]; intros acc; simpl.
  - apply Spec_ret. exists []. by rewrite app_nil_r.
  - eapply Spec_bind; [apply extractor_card_step_spec|].
    intros acc1 Hstep. eapply Spec_weaken; [apply IH|].
    intros acc' (new & -> & Hsub). destruct Hstep as [->|(r & -> & Hr)].
    + exists new. split; [done|]. by apply sublist_cons.
    + exists (r :: new). rewrite <- (assoc (++)). split; [done|].
      simpl. rewrite Hr. by apply sublist_skip.
Qed.

Lemma ingestor_card_loop_spec {W} (host : Host W) (ids : gset string)
    (items : list json) :
  ∀ acc,
    Spec (Ingestor.card_loop host ids items acc)
         (λ acc', ∃ new, acc' = acc ++ new
                         ∧ map Link new `sublist_of` map link_of items).
Proof.
  induction items as [|item items IH]; intros acc; simpl.
  - apply Spec_ret. exists []. by rewrite app_nil_r.
  - eapply Spec_bind; [apply ingestor_card_step_spec|].
    intros acc1 Hstep. eapply Spec_weaken; [apply IH|].
    intros acc' (new & -> & Hsub). destruct Hstep as [->|(r & -> & Hr)].
    + exists new. split; [done|]. by apply sublist_cons.
    + exists (r :: new). rewrite <- (assoc (++)). split; [done|].
      simpl. rewrite Hr. by apply sublist_skip.
Qed.

(** The records of a page follow the order of its cards, one at most for
    each. *)
Lemma extractor_extract_card_info_spec {W} (host : Host W) (database_items : json) :
  Spec (DataExtractor.extract_card_info host database_items)
       (λ l, map Link l `sublist_of` map link_of (items_of database_items)).
Proof.
  unfold DataExtractor.extract_card_info, items_of.
  eapply Spec_bind; [apply Spec_lift|]. intros results ->.
  eapply Spec_bind; [apply Spec_lift|]. intros items ->.
  eapply Spec_weaken; [apply extractor_card_loop_spec|].
  by intros l (new & -> & Hsub).
Qed.

Lemma ingestor_extract_card_info_spec {W} (host : Host W) (ids : gset string)
    (database_items : json) :
  Spec (Ingestor.extract_card_info host database_items ids)
       (λ l, map Link l `sublist_of` map link_of (items_of database_items)).
Proof.
  unfold Ingestor.extract_card_info, items_of.
  eapply Spec_bind; [apply Spec_lift|]. intros results ->.
  eapply Spec_bind; [apply Spec_lift|]. intros items ->.
  eapply Spec_weaken; [apply ingestor_card_loop_spec|].
  by intros l (new & -> & Hsub).
Qed.

(** A listing request leaves the files alone and delivers the cards of the
    page it returns. *)
Lemma get_database_items_Ok {W} (host : Host W) (database_id : option string)
    (cursor : json) (e e' : Env W) (database_items : json) :
  get_database_items host database_id cursor e = Ok database_items e' →
  files e' = files e
  ∧ delivered (calls e') = delivered (calls e) ++ items_of database_items.
Proof.
  unfold get_database_items, bind, request, lift, resp_json.
  destruct (send host _ (world e)) as [rs w'].
  destruct (status_code rs =? 200)%Z eqn:Hst;
    destruct (body rs) as [j|] eqn:Hb; simpl; [|done| |done];
    intros [= <- <-]; simpl;
    (split; [done|]); rewrite delivered_app; simpl; rewrite Hst, ?Hb; simpl;
    by rewrite !app_nil_r.
Qed.

(** The pagination loop, when it returns, has written no file; the records
    it added follow, in order, cards that the listing delivered meanwhile,
    one record at most for each delivery. *)
Lemma extractor_page_loop_Ok {W} (host : Host W) (fuel : nat) :
  ∀ cursor acc e all e',
    DataExtractor.page_loop host fuel cursor acc e = Ok all e' →
    files e' = files e
    ∧ ∃ new d,
        all = acc ++ new
        ∧ delivered (calls e') = delivered (calls e) ++ d
        ∧ map Link new `sublist_of` map link_of d.
Proof.
  induction fuel as [|fuel IH]; intros cursor acc e all e' H; [done|].
  simpl in H. apply bind_Ok in H as (db & e1 & Hdb & H).
  apply get_database_items_Ok in Hdb as [Hf1 Hd1].
  assert (Hcont :
    (let* l := DataExtractor.extract_card_info host db in
     let* has_more := lift (py_get db "has_more" JNull) in
     if negb (truthy has_more) then ret (acc ++ l)
     else let* next := lift (py_get db "next_cursor" JNull) in
          DataExtractor.page_loop host fuel next (acc ++ l)) e1 = Ok all e' →
    files e' = files e
    ∧ ∃ new d, all = acc ++ new
               ∧ delivered (calls e') = delivered (calls e) ++ d
               ∧ map Link new `sublist_of` map link_of d).
  { clear H. intros H.
    apply bind_Ok in H as (l & e2 & Hl & H).
    apply extractor_extract_card_info_spec in Hl as [[Hf2 Hd2] Hsub].
    apply bind_Ok in H as (has_more & ? & [_ ->]%lift_Ok & H).
    destruct (negb (truthy has_more)).
    - injection H as <- <-. split; [congruence|].
      exists l, (items_of db). split; [done|]. split; [congruence|done].
    - apply bind_Ok in H as (next & ? & [_ ->]%lift_Ok & H).
      apply IH in H as (Hf3 & new & d & -> & Hd3 & Hsub3).
      split; [congruence|]. exists (l ++ new), (items_of db ++ d).
      rewrite (assoc (++)). split; [done|]. split.
      + rewrite Hd3, Hd2, Hd1. by rewrite (assoc (++)).
      + rewrite !map_app. by apply sublist_app. }
  destruct db; try (by apply Hcont).
  unfold ret in H. injection H as <- <-. split; [done|]. exists [], [].
  rewrite app_nil_r. split; [done|]. split; [|done].
  rewrite Hd1. reflexivity.
Qed.

Lemma ingestor_page_loop_Ok {W} (host : Host W) (ids : gset string) (fuel : nat) :
  ∀ cursor acc e all e',
    Ingestor.page_loop host ids fuel cursor acc e = Ok all e' →
    files e' = files e
    ∧ ∃ new d,
        all = acc ++ new
        ∧ delivered (calls e') = delivered (calls e) ++ d
        ∧ map Link new `sublist_of` map link_of d.
Proof.
  induction fuel as [|fuel IH]; intros cursor acc e all e' H; [done|].
  simpl in H. apply bind_Ok in H as (db & e1 & Hdb & H).
  apply get_database_items_Ok in Hdb as [Hf1 Hd1].
  assert (Hcont :
    (let* l := Ingestor.extract_card_info host db ids in
     let* has_more := lift (py_get db "has_more" JNull) in
     if negb (truthy has_more) then ret (acc ++ l)
     else let* next := lift (py_get db "next_cursor" JNull) in
          Ingestor.page_loop host ids fuel next (acc ++ l)) e1 = Ok all e' →
    files e' = files e
    ∧ ∃ new d, all = acc ++ new
               ∧ delivered (calls e') = delivered (calls e) ++ d
               ∧ map Link new `sublist_of` map link_of d).
  { clear H. intros H.
    apply bind_Ok in H as (l & e2 & Hl & H).
    apply ingestor_extract_card_info_spec in Hl as [[Hf2 Hd2] Hsub].
    apply bind_Ok in H as (has_more & ? & [_ ->]%lift_Ok & H).
    destruct (negb (truthy has_more)).
    - injection H as <- <-. split; [congruence|].
      exists l, (items_of db). split; [done|]. split; [congruence|done].
    - apply bind_Ok in H as (next & ? & [_ ->]%lift_Ok & H).
      apply IH in H as (Hf3 & new & d & -> & Hd3 & Hsub3).
      split; [congruence|]. exists (l ++ new), (items_of db ++ d).
      rewrite (assoc (++)). split; [done|]. split.
      + rewrite Hd3, Hd2, Hd1. by rewrite (assoc (++)).
      + rewrite !map_app. by apply sublist_app. }
  destruct db; try (by apply Hcont).
  unfold ret in H. injection H as <- <-. split; [done|]. exists [], [].
  rewrite app_nil_r. split; [done|]. split; [|done].
  rewrite Hd1. reflexivity.
Qed.

(** C6 as stated fails: when the listing delivers a card on two pages, the
    accumulated records hold the card twice, in either variant. *)
Lemma card_delivered_twice_is_recorded_twice :
  (∃ e, DataExtractor.main scripted_host 3 (start repeating_listing ∅) = Ok tt e
        ∧ files e !! "/home/user/Desktop/orga_ids.csv"
          = Some [sample_record; sample_record])
  ∧ (∃ e, Ingestor.main scripted_host 3 (start repeating_listing_written ∅) = Ok tt e
          ∧ files e !! export_path = Some [sample_record; sample_record]).
Proof.
  split; eexists; (split; [vm_compute; reflexivity|]); vm_compute; reflexivity.
Qed.

(** C6, as the code has it: in both variants the records the pagination
    loop accumulates follow, in order, the cards the listing delivered, with
    one record at most for each delivery; so when the links of the delivered
    cards are pairwise different, no card is recorded twice. *)
Theorem one_record_per_delivery {W} (host : Host W) (ids : gset string)
    (fuel : nat) (cursor : json) (acc all : list CardInfo) (e e' : Env W) :
  DataExtractor.page_loop host fuel cursor acc e = Ok all e'
  ∨ Ingestor.page_loop host ids fuel cursor acc e = Ok all e' →
  ∃ new d,
    all = acc ++ new
    ∧ delivered (calls e') = delivered (calls e) ++ d
    ∧ map Link new `sublist_of` map link_of d
    ∧ (NoDup (map link_of d) → NoDup (map Link new)).
Proof.
  intros [H|H].
  - apply extractor_page_loop_Ok in H as (_ & new & d & Hall & Hd & Hsub).
    exists new, d. split; [done|]. split; [done|]. split; [done|].
    intros Hnd. by eapply sublist_NoDup.
  - apply ingestor_page_loop_Ok in H as (_ & new & d & Hall & Hd & Hsub).
    exists new, d. split; [done|]. split; [done|]. split; [done|].
    intros Hnd. by eapply sublist_NoDup.
Qed.

Lemma one_record_per_delivery_witness :
  ∃ all e',
    DataExtractor.page_loop scripted_host 2 JNull []
      (start (drop 1 repeating_listing) ∅) = Ok all e'
    ∧ ∃ new d,
        all = [] ++ new
        ∧ delivered (calls e')
          = delivered (calls (start (drop 1 repeating_listing) ∅)) ++ d
        ∧ map Link new `sublist_of` map link_of d
        ∧ (NoDup (map link_of d) → NoDup (map Link new)).
Proof.
  eexists _, _. split; [vm_compute; reflexivity|].
  apply (one_record_per_delivery scripted_host ∅ 2 JNull [] _
           (start (drop 1 repeating_listing) ∅) _).
  left. vm_compute. reflexivity.
Defined.

(** ** The export *)

Lemma extractor_export_Ok {W} (host : Host W) (all : list CardInfo) (e : Env W) :
  ∃ e',
    DataExtractor.export host all e = Ok tt e'
    ∧ files e' = match all with
                 | [] => files e
                 | _ :: _ => <[DataExtractor.csv_path host := all]> (files e)
                 end
    ∧ console e' = console e ++
        match all with
        | [] => [Text "No cards were found with an organization ID in the body."]
        | _ :: _ => [Text ("Card information has been written to "
                           +:+ DataExtractor.csv_path host)]
        end.
Proof. destruct all; eexists; (split; [reflexivity|]); split; reflexivity. Qed.

Lemma ingestor_export_Ok {W} (host : Host W) (all : list CardInfo) (e : Env W) :
  ∃ e',
    Ingestor.export host all e = Ok tt e'
    ∧ files e' = match all with
                 | [] => files e
                 | _ :: _ => <[Ingestor.csv_path host := all]> (files e)
                 end
    ∧ console e' = console e ++
        match all with
        | [] => [Text "No cards were found without the 'ORGA ID*' property."]
        | _ :: _ => [Text ("Card information has been written to "
                           +:+ Ingestor.csv_path host);
                     Text ("Number of cards without 'ORGA ID*': "
                           +:+ str_Z (Z.of_nat (length all)))]
        end.
Proof.
  destruct all; eexists; (split; [reflexivity|]); split; try reflexivity.
  simpl. by rewrite <- (assoc (++)).
Qed.

(** A run that completes has gone through the listing error, or through the
    pagination loop and the export of what the loop accumulated. *)
Lemma extractor_main_Ok {W} (host : Host W) (fuel : nat) (e e' : Env W) :
  DataExtractor.main host fuel e = Ok tt e' →
  files e' = files e
  ∨ ∃ e0 all e1 e2,
      files e0 = files e
      ∧ DataExtractor.page_loop host fuel JNull [] e0 = Ok all e1
      ∧ files e2 = files e1
      ∧ DataExtractor.export host all e2 = Ok tt e'.
Proof.
  unfold DataExtractor.main. intros H.
  apply bind_Ok in H as (initial & e0 & Hinit & H).
  apply get_database_items_Ok in Hinit as [Hf0 _].
  assert (Hcont :
    (let* total_cards := lift (py_get initial "total" (JNum 0)) in
     let* _ := tqdm total_cards "Processing cards" in
     let* all_card_info := DataExtractor.page_loop host fuel JNull [] in
     let* _ := bar_close in
     DataExtractor.export host all_card_info) e0 = Ok tt e' →
    ∃ e0' all e1 e2,
      files e0' = files e
      ∧ DataExtractor.page_loop host fuel JNull [] e0' = Ok all e1
      ∧ files e2 = files e1
      ∧ DataExtractor.export host all e2 = Ok tt e').
  { clear H. intros H.
    apply bind_Ok in H as (total & ? & [_ ->]%lift_Ok & H).
    apply bind_Ok in H as ([] & e0' & Hq & H).
    apply Spec_tqdm in Hq as [[Hf0' _] _].
    apply bind_Ok in H as (all & e1 & Hloop & H).
    apply bind_Ok in H as ([] & e2 & Hc & H).
    apply Spec_bar_close in Hc as [[Hf2 _] _].
    exists e0', all, e1, e2. repeat split; [congruence|done..]. }
  destruct initial; try (right; by apply Hcont).
  left. injection H as <-. done.
Qed.

Lemma ingestor_main_Ok {W} (host : Host W) (fuel : nat) (e e' : Env W) :
  Ingestor.main host fuel e = Ok tt e' →
  files e' = files e
  ∨ ∃ e0 all e1 e2,
      files e0 = files e
      ∧ Ingestor.page_loop host
          (match files e !! Ingestor.csv_path host with
           | Some df_existing => Ingestor.processed_of df_existing
           | None => ∅
           end) fuel JNull [] e0 = Ok all e1
      ∧ files e2 = files e1
      ∧ Ingestor.export host all e2 = Ok tt e'.
Proof.
  unfold Ingestor.main. intros H.
  apply bind_Ok in H as (ids & e00 & Hload & H).
  assert (e00 = e ∧ ids = match files e !! Ingestor.csv_path host with
                          | Some df_existing => Ingestor.processed_of df_existing
                          | None => ∅
                          end) as [-> ->].
  { unfold Ingestor.load_processed, bind, read_file in Hload.
    destruct (files e !! Ingestor.csv_path host); by injection Hload as <- <-. }
  apply bind_Ok in H as (initial & e0 & Hinit & H).
  apply get_database_items_Ok in Hinit as [Hf0 _].
  set (ids := match files e !! Ingestor.csv_path host with
              | Some df_existing => Ingestor.processed_of df_existing
              | None => ∅
              end) in *.
  assert (Hcont :
    (let* total_cards := lift (py_get initial "total" (JNum 0)) in
     let* _ := tqdm total_cards "Processing cards" in
     let* all_card_info := Ingestor.page_loop host ids fuel JNull [] in
     let* _ := bar_close in
     Ingestor.export host all_card_info) e0 = Ok tt e' →
    ∃ e0' all e1 e2,
      files e0' = files e
      ∧ Ingestor.page_loop host ids fuel JNull [] e0' = Ok all e1
      ∧ files e2 = files e1
      ∧ Ingestor.export host all e2 = Ok tt e').
  { clear H. intros H.
    apply bind_Ok in H as (total & ? & [_ ->]%lift_Ok & H).
    apply bind_Ok in H as ([] & e0' & Hq & H).
    apply Spec_tqdm in Hq as [[Hf0' _] _].
    apply bind_Ok in H as (all & e1 & Hloop & H).
    apply bind_Ok in H as ([] & e2 & Hc & H).
    apply Spec_bar_close in Hc as [[Hf2 _] _].
    exists e0', all, e1, e2. repeat split; [congruence|done..]. }
  destruct initial; try (right; by apply Hcont).
  left. injection H as <-. done.
Qed.

Lemma no_cards_message_distinct (s : string) :
  Text "No cards were found with an organization ID in the body."
    ≠ Text ("Card information has been written to " +:+ s)
  ∧ Text "No cards were found without the 'ORGA ID*' property."
    ≠ Text ("Card information has been written to " +:+ s)
  ∧ Text "No cards were found without the 'ORGA ID*' property."
    ≠ Text ("Number of cards without 'ORGA ID*': " +:+ s).
Proof. repeat split; intros [=]. Qed.

(** C8: in both variants the export of an empty sequence of records writes
    no file and prints a message of its own, which the export of a non-empty
    sequence does not print; and a run that completes either leaves the
    files as they were or writes a file with at least one row. *)
Theorem empty_result_writes_no_file {W} (host : Host W) (e : Env W) :
  (∃ e', DataExtractor.export host [] e = Ok tt e'
         ∧ files e' = files e
         ∧ console e' = console e ++
             [Text "No cards were found with an organization ID in the body."])
  ∧ (∃ e', Ingestor.export host [] e = Ok tt e'
           ∧ files e' = files e
           ∧ console e' = console e ++
               [Text "No cards were found without the 'ORGA ID*' property."])
  ∧ (∀ row rows, ∃ e' msgs,
       DataExtractor.export host (row :: rows) e = Ok tt e'
       ∧ console e' = console e ++ msgs
       ∧ Text "No cards were found with an organization ID in the body." ∉ msgs)
  ∧ (∀ row rows, ∃ e' msgs,
       Ingestor.export host (row :: rows) e = Ok tt e'
       ∧ console e' = console e ++ msgs
       ∧ Text "No cards were found without the 'ORGA ID*' property." ∉ msgs)
  ∧ (∀ fuel e',
       DataExtractor.main host fuel e = Ok tt e' →
       files e' = files e
       ∨ ∃ rows, rows ≠ []
                 ∧ files e' = <[DataExtractor.csv_path host := rows]> (files e))
  ∧ (∀ fuel e',
       Ingestor.main host fuel e = Ok tt e' →
       files e' = files e
       ∨ ∃ rows, rows ≠ []
                 ∧ files e' = <[Ingestor.csv_path host := rows]> (files e)).
Proof.
  split; [apply (extractor_export_Ok host [] e)|].
  split; [apply (ingestor_export_Ok host [] e)|].
  split; [|split; [|split]].
  - intros row rows.
    destruct (extractor_export_Ok host (row :: rows) e) as (e' & He & _ & Hc).
    eexists e', _. split; [done|]. split; [done|].
    intros [H|[]%elem_of_nil]%elem_of_cons.
    by apply (no_cards_message_distinct (DataExtractor.csv_path host)) in H.
  - intros row rows.
    destruct (ingestor_export_Ok host (row :: rows) e) as (e' & He & _ & Hc).
    eexists e', _. split; [done|]. split; [done|].
    intros [H|[H|[]%elem_of_nil]%elem_of_cons]%elem_of_cons.
    + by apply (no_cards_message_distinct (Ingestor.csv_path host)) in H.
    + by apply (no_cards_message_distinct
                  (str_Z (Z.of_nat (length (row :: rows))))) in H.
  - intros fuel e' [?|(e0 & all & e1 & e2 & Hf0 & Hloop & Hf2 & Hexp)]%extractor_main_Ok;
      [by left|].
    apply extractor_page_loop_Ok in Hloop as [Hf1 _].
    destruct (extractor_export_Ok host all e2) as (e'' & He & Hf & _).
    rewrite Hexp in He. injection He as <-.
    destruct all as [|row rows]; [left; congruence|].
    right. exists (row :: rows). split; [done|]. congruence.
  - intros fuel e' [?|(e0 & all & e1 & e2 & Hf0 & Hloop & Hf2 & Hexp)]%ingestor_main_Ok;
      [by left|].
    apply ingestor_page_loop_Ok in Hloop as [Hf1 _].
    destruct (ingestor_export_Ok host all e2) as (e'' & He & Hf & _).
    rewrite Hexp in He. injection He as <-.
    destruct all as [|row rows]; [left; congruence|].
    right. exists (row :: rows). split; [done|]. congruence.
Qed.


Lemma empty_result_writes_no_file_witness :
  ∃ e',
    DataExtractor.main scripted_host 3 (start (take 3 mixed_run) ∅) = Ok tt e'
    ∧ (files e' = files (start (take 3 mixed_run) ∅)
       ∨ ∃ rows, rows ≠ []
                 ∧ files e' = <[DataExtractor.csv_path scripted_host := rows]>
                                (files (start (take 3 mixed_run) ∅))).
Proof.
  eexists. split; [vm_compute; reflexivity|].
  destruct (empty_result_writes_no_file scripted_host
              (start (take 3 mixed_run) ∅)) as (_ & _ & _ & _ & H & _).
  apply (H 3). vm_compute. reflexivity.
Defined.

(** C9: in the write-back variant the file read at the start to seed the
    Processed-ID Set is the file the export writes; the export of a non-empty
    sequence makes the file hold that sequence and nothing else; so after a
    run that completes the file holds either what it held before (nothing
    was exported) or exactly the records this run's loop accumulated, the
    rows of earlier runs being gone. *)
Theorem export_replaces_earlier_rows {W} (host : Host W) (old : list CardInfo)
    (e : Env W) :
  files e !! Ingestor.csv_path host = Some old →
  Ingestor.load_processed host e = Ok (Ingestor.processed_of old) e
  ∧ (∀ row rows e2, ∃ e',
       Ingestor.export host (row :: rows) e2 = Ok tt e'
       ∧ files e' = <[Ingestor.csv_path host := row :: rows]> (files e2)
       ∧ files e' !! Ingestor.csv_path host = Some (row :: rows))
  ∧ (∀ fuel e',
       Ingestor.main host fuel e = Ok tt e' →
       files e' = files e
       ∨ ∃ e0 all e1,
           all ≠ []
           ∧ Ingestor.page_loop host (Ingestor.processed_of old) fuel JNull [] e0
             = Ok all e1
           ∧ files e' = <[Ingestor.csv_path host := all]> (files e)
           ∧ files e' !! Ingestor.csv_path host = Some all).
Proof.
  intros Hold. split; [|split].
  - unfold Ingestor.load_processed, bind, read_file. by rewrite Hold.
  - intros row rows e2.
    destruct (ingestor_export_Ok host (row :: rows) e2) as (e' & He & Hf & _).
    exists e'. split; [done|]. split; [done|]. rewrite Hf.
    apply lookup_insert_eq.
  - intros fuel e' [?|(e0 & all & e1 & e2 & Hf0 & Hloop & Hf2 & Hexp)]%ingestor_main_Ok;
      [by left|].
    rewrite Hold in Hloop. pose proof Hloop as Hloop'.
    apply ingestor_page_loop_Ok in Hloop as [Hf1 _].
    destruct (ingestor_export_Ok host all e2) as (e'' & He & Hf & _).
    rewrite Hexp in He. injection He as <-.
    destruct all as [|row rows]; [left; congruence|].
    right. exists e0, (row :: rows), e1. split; [done|]. split; [done|].
    assert (files e' = <[Ingestor.csv_path host := row :: rows]> (files e)) as ->
      by congruence.
    split; [done|]. apply lookup_insert_eq.
Qed.

Lemma export_replaces_earlier_rows_witness :
  Ingestor.load_processed scripted_host (start writing_run earlier_export)
  = Ok (Ingestor.processed_of
          [{| Link := "https://www.notion.so/0a1b2c3d4e5f60718293a4b5c6d7e8f9";
              Card_Title := "Birch"; Org_ID := sample_id; Source := "Corpus" |}])
       (start writing_run earlier_export).
Proof.
  apply (export_replaces_earlier_rows scripted_host _
           (start writing_run earlier_export)).
  vm_compute. reflexivity.
Defined.

Example earlier_rows_replaced_run :
  ∃ e', Ingestor.main scripted_host 3 (start writing_run earlier_export) = Ok tt e'
        ∧ files e' !! export_path = Some [sample_record].
Proof. eexists. split; vm_compute; reflexivity. Qed.

(** ** Reaching the export *)



Lemma get_database_items_None {W} (host : Host W) (cursor : json) (e e0 : Env W)
    (database_items : json) :
  get_database_items host (DATABASE_ID host) cursor e = Ok database_items e0 →
  files e0 = files e ∧ bar e0 = bar e.
Proof.
  unfold get_database_items, bind, request, lift, resp_json.
  destruct (send host _ (world e)) as [rs w'].
  destruct (negb (status_code rs =? 200)%Z), (body rs); simpl; intros H;
    try discriminate H; by injection H as <- <-.
Qed.

Lemma load_processed_Ok {W} (host : Host W) (e : Env W) :
  Ingestor.load_processed host e = Ok (processed_at host e) e.
Proof.
  unfold Ingestor.load_processed, processed_at, bind, read_file.
  by destruct (files e !! Ingestor.csv_path host).
Qed.






(** The exception does not depend on the fuel. *)
Lemma untyped_block_aborts_any_fuel (fuel : nat) :
  ∃ e', DataExtractor.main scripted_host (S fuel) (start untyped_block_run ∅)
        = Raise KeyError e'.
Proof. eexists. vm_compute. reflexivity. Qed.

(** On a listing that never ends the loop goes on for any fuel: the export
    is not reached. *)
Lemma endless_page_loop (fuel : nat) :
  ∀ cursor acc e,
    DataExtractor.page_loop endless_host fuel cursor acc e = Diverge
    ∧ ∀ ids, Ingestor.page_loop endless_host ids fuel cursor acc e = Diverge.
Proof.
  induction fuel as [|fuel IH]; intros cursor acc e; [done|].
  split; [|intros ids]; cbn; unfold bind; cbn; rewrite app_nil_r; apply IH.
Qed.

Lemma endless_listing_never_exports (fuel : nat) :
  DataExtractor.main endless_host fuel (start tt ∅) = Diverge
  ∧ Ingestor.main endless_host fuel (start tt ∅) = Diverge.
Proof.
  split.
  - unfold DataExtractor.main. cbn. unfold bind. cbn.
    by rewrite (proj1 (endless_page_loop fuel _ _ _)).
  - unfold Ingestor.main. unfold bind at 1. rewrite load_processed_Ok.
    cbn. unfold bind. cbn.
    by rewrite (proj2 (endless_page_loop fuel _ _ _)).
Qed.

(** ** The progress bar *)

Lemma Keeps_ret {W A} (a : A) : Keeps (W := W) (ret a).
Proof. by intros e a' e' [= <- <-]. Qed.

Lemma Keeps_bind {W A B} (c : M W A) (k : A → M W B) :
  Keeps c → (∀ a, Keeps (k a)) → Keeps (bind c k).
Proof.
  intros Hc Hk e b e' (a & e1 & H1 & H2)%bind_Ok.
  rewrite (Hk _ _ _ _ H2). by apply (Hc _ _ _ H1).
Qed.

Lemma Keeps_lift {W A} (c : Exc A) : Keeps (W := W) (lift c).
Proof. by intros e a e' [_ ->]%lift_Ok. Qed.

Lemma Keeps_print {W} (o : out) : Keeps (W := W) (print o).
Proof. by intros e a e' [= <- <-]. Qed.

Lemma Keeps_request {W} (host : Host W) (meth u : string) (payload : option json) :
  Keeps (request host meth u payload).
Proof.
  intros e rs e'. unfold request.
  destruct (send host _ (world e)) as [rs' w']. by intros [= <- <-].
Qed.

Ltac keeps_step :=
  lazymatch goal with
  | |- Keeps (bind _ _) => apply Keeps_bind; [|intros ?]
  | |- Keeps (ret _) => apply Keeps_ret
  | |- Keeps (lift _) => apply Keeps_lift
  | |- Keeps (print _) => apply Keeps_print
  | |- Keeps (request _ _ _ _) => apply Keeps_request
  | |- Keeps (if ?b then _ else _) => destruct b
  | |- Keeps (match ?x with _ => _ end) => destruct x
  end.

Lemma Keeps_get_page_blocks {W} (host : Host W) (page_id : string) :
  Keeps (get_page_blocks host page_id).
Proof. unfold get_page_blocks. repeat keeps_step. Qed.

Lemma Keeps_update_card_property {W} (host : Host W) (page_id org_id : string) :
  Keeps (Ingestor.update_card_property host page_id org_id).
Proof. unfold Ingestor.update_card_property. repeat keeps_step. Qed.

Lemma Keeps_verify_card_property {W} (host : Host W) (page_id org_id : string) :
  Keeps (Ingestor.verify_card_property host page_id org_id).
Proof. unfold Ingestor.verify_card_property. repeat keeps_step. Qed.

Lemma bar_update_Ok {W} (e e' : Env W) (u : unit) :
  bar_update e = Ok u e' →
  bar_n (bar e') = bar_n (bar e) + 1 ∧ bar_total (bar e') = bar_total (bar e).
Proof. by intros [= <- <-]. Qed.

Lemma bar_describe_Ok {W} (e e' : Env W) (u : unit) :
  bar_describe e = Ok u e' →
  bar_n (bar e') = bar_n (bar e) ∧ bar_total (bar e') = bar_total (bar e).
Proof. by intros [= <- <-]. Qed.

(** In the read-only variant the loop body advances the bar by one, except
    for a card whose target field is set, which leaves it where it is. *)
Lemma extractor_step_progress {W} (host : Host W) (item : json)
    (acc acc' : list CardInfo) (e e' : Env W) :
  DataExtractor.card_step host item acc e = Ok acc' e' →
  bar_n (bar e') = bar_n (bar e) + (if is_filled item then 0 else 1).
Proof.
  unfold DataExtractor.card_step, is_filled. intros H.
  apply bind_Ok in H as (properties & ? & [-> ->]%lift_Ok & H).
  apply bind_Ok in H as (orga & ? & [-> ->]%lift_Ok & H).
  apply bind_Ok in H as (filled & ? & [-> ->]%lift_Ok & H).
  destruct filled.
  { injection H as <- <-. lia. }
  apply bind_Ok in H as (title & ? & [_ ->]%lift_Ok & H).
  apply bind_Ok in H as (id & ? & [_ ->]%lift_Ok & H).
  destruct id as [| | |id| |]; try done.
  apply bind_Ok in H as (blocks & e1 & Hb%Keeps_get_page_blocks & H).
  apply bind_Ok in H as (org_id & e2 & Ho & H).
  assert (bar e2 = bar e1) as Hb2.
  { destruct (truthy blocks); [by apply lift_Ok in Ho as [_ ->]|].
    by injection Ho as <- <-. }
  apply bind_Ok in H as (l & e3 & Hl & H).
  assert (bar e3 = bar e2) as Hb3.
  { by destruct (found org_id); injection Hl as <- <-. }
  apply bind_Ok in H as (u & e4 & [Hn _]%bar_update_Ok & H).
  injection H as <- <-. rewrite Hn. congruence.
Qed.

(** In the write-back variant the two skips leave the bar where it is; every
    other outcome advances it by one. *)
Lemma ingestor_step_progress {W} (host : Host W) (ids : gset string) (item : json)
    (acc acc' : list CardInfo) (e e' : Env W) :
  Ingestor.card_step host ids item acc e = Ok acc' e' →
  bar_n (bar e') = bar_n (bar e)
                   + (if is_filled item || is_processed ids item then 0 else 1).
Proof.
  unfold Ingestor.card_step, is_filled, is_processed. intros H.
  apply bind_Ok in H as (properties & ? & [-> ->]%lift_Ok & H).
  apply bind_Ok in H as (orga & ? & [-> ->]%lift_Ok & H).
  apply bind_Ok in H as (filled & ? & [-> ->]%lift_Ok & H).
  destruct filled.
  { injection H as <- <-. simpl. lia. }
  apply bind_Ok in H as (page_id & ? & [-> ->]%lift_Ok & H).
  apply bind_Ok in H as (seen & ? & [-> ->]%lift_Ok & H).
  destruct seen.
  { injection H as <- <-. simpl. lia. }
  simpl.
  apply bind_Ok in H as (title & ? & [_ ->]%lift_Ok & H).
  destruct page_id as [| | |page_id| |]; try done.
  apply bind_Ok in H as (blocks & e1 & Hb%Keeps_get_page_blocks & H).
  apply bind_Ok in H as (org_id & e2 & Ho & H).
  assert (bar e2 = bar e1) as Hb2.
  { destruct (truthy blocks); [by apply lift_Ok in Ho as [_ ->]|].
    by injection Ho as <- <-. }
  apply bind_Ok in H as (l & e3 & Hl & H).
  assert (bar e3 = bar e2) as Hb3.
  { destruct (found org_id) as [oid|]; [|by injection Hl as <- <-].
    revert Hl.
    match goal with
    | |- ?c e2 = Ok l e3 → _ => assert (Keeps c) as HK; [|apply HK]
    end.
    apply Keeps_bind; [apply Keeps_update_card_property|]. intros updated.
    destruct updated; [|repeat keeps_step].
    apply Keeps_bind; [apply Keeps_verify_card_property|]. intros verified.
    destruct verified; repeat keeps_step. }
  apply bind_Ok in H as (u & e4 & [Hn _]%bar_update_Ok & H).
  apply bind_Ok in H as (u' & e5 & [Hn' _]%bar_describe_Ok & H).
  injection H as <- <-. rewrite Hn', Hn. congruence.
Qed.

(** Over a page the bar advances by the number of cards that are not
    skipped, which is the number of cards only when none is skipped. *)
Lemma extractor_loop_progress {W} (host : Host W) (items : list json) :
  ∀ acc acc' (e e' : Env W),
    DataExtractor.card_loop host items acc e = Ok acc' e' →
    bar_n (bar e') = bar_n (bar e)
                     + length (List.filter (λ i, negb (is_filled i)) items).
Proof.
  induction items as [|item items IH]; intros acc acc' e e' H.
  { injection H as <- <-. simpl. lia. }
  simpl in H. apply bind_Ok in H as (acc1 & e1 & Hstep & H).
  apply extractor_step_progress in Hstep. apply IH in H.
  simpl. destruct (is_filled item); simpl; lia.
Qed.

Lemma ingestor_loop_progress {W} (host : Host W) (ids : gset string)
    (items : list json) :
  ∀ acc acc' (e e' : Env W),
    Ingestor.card_loop host ids items acc e = Ok acc' e' →
    bar_n (bar e') = bar_n (bar e)
                     + length (List.filter
                                 (λ i, negb (is_filled i || is_processed ids i)) items).
Proof.
  induction items as [|item items IH]; intros acc acc' e e' H.
  { injection H as <- <-. simpl. lia. }
  simpl in H. apply bind_Ok in H as (acc1 & e1 & Hstep & H).
  apply ingestor_step_progress in Hstep. apply IH in H.
  simpl. destruct (is_filled item || is_processed ids item); simpl; lia.
Qed.

(** * Further properties of the code *)

(** ** The extractor on any input *)

(** X1: the extractor of [Ingestor.py] ([re.findall], first element) and the
    extractor of [Data_Extractor.py] ([re.search]) give the same result on
    every input, exceptions included. *)
Theorem extractors_agree_on_every_input (blocks : json) :
  Ingestor.extract_org_id_from_blocks blocks
  = DataExtractor.extract_org_id_from_blocks blocks.
Proof. apply extract_org_id_agree. Qed.

Lemma scan_blocks_shape (blocks : list json) (id : string) :
  DataExtractor.scan_blocks blocks = Val (Some id) →
  uuid_shape (list_ascii_of_string id).
Proof.
  induction blocks as [|block rest IH]; [done|]. simpl.
  destruct (py_getitem block (JStr "type")) as [block_type|]; [|done]. simpl.
  destruct (py_getitem block block_type) as [block_data|]; [|done]. simpl.
  destruct (py_in_strings block_type recognized_types); [|done].
  destruct (py_get block_data "rich_text" (JArr [])) as [rich_text|]; [|done].
  simpl. destruct (join_field "plain_text" rich_text) as [text|]; [|done]. simpl.
  destruct (re_search org_id_pattern text) as [m|] eqn:E; [|done].
  intros [= ->]. apply re_search_first_match in E as (pre & (post & _ & Hm & _) & _).
  done.
Qed.

Lemma string_length_chars (s : string) :
  String.length s = length (list_ascii_of_string s).
Proof. induction s as [|c s IH]; [done|]. simpl. by rewrite IH. Qed.

(** X2: whatever the blocks are, an identifier that either extractor returns
    has the 8-4-4-4-12 shape, so it has 36 characters and the caller's
    [if org_id] never discards it. *)
Theorem extracted_identifier_has_the_shape (blocks : json) (id : string) :
  DataExtractor.extract_org_id_from_blocks blocks = Val (Some id)
  ∨ Ingestor.extract_org_id_from_blocks blocks = Val (Some id) →
  uuid_shape (list_ascii_of_string id)
  ∧ String.length id = 36
  ∧ found (Some id) = Some id.
Proof.
  rewrite extract_org_id_agree. intros H.
  assert (DataExtractor.extract_org_id_from_blocks blocks = Val (Some id)) as H'
    by (by destruct H).
  clear H. unfold DataExtractor.extract_org_id_from_blocks in H'.
  destruct (py_get blocks "results" (JArr [])) as [results|]; [|done].
  simpl in H'. destruct (py_iter results) as [items|]; [|done]. simpl in H'.
  apply scan_blocks_shape in H'. pose proof (uuid_shape_length _ H') as Hlen.
  rewrite <- string_length_chars in Hlen.
  split; [done|]. split; [done|]. simpl. by destruct id.
Qed.

Lemma extracted_identifier_has_the_shape_witness :
  uuid_shape (list_ascii_of_string sample_id)
  ∧ String.length sample_id = 36
  ∧ found (Some sample_id) = Some sample_id.
Proof.
  apply (extracted_identifier_has_the_shape sample_blocks_json sample_id).
  left. vm_compute. reflexivity.
Defined.

(** ** The title of a card *)

Lemma first_title_skips (pre rest : list json) :
  Forall other_property pre →
  first_title (pre ++ rest) = first_title rest.
Proof.
  induction 1 as [|prop pre (fields & ty & -> & Hty & Hne) _ IH]; [done|].
  simpl. rewrite Hty. simpl. destruct ty as [| | |s| |]; try done.
  destruct (String.eqb s "title") eqn:E; [|done].
  apply String.eqb_eq in E. by subst.
Qed.

(** X3: the title of a card is the concatenated plain text of the first
    property, in order, whose ['type'] is ['title']; the properties after it
    are not inspected, whatever they are. *)
Theorem title_is_first_title_property
    (pre post : list (string * json)) (name : string) (prop : json)
    (rs : list string) :
  Forall other_property (map snd pre) →
  title_property prop rs →
  card_title (JObj (pre ++ (name, prop) :: post))
  = Val (foldr String.append "" rs).
Proof.
  intros Hpre (fields & spans & -> & Hty & Htitle & Hspans).
  unfold card_title. rewrite map_app, (first_title_skips _ _ Hpre).
  cbn [map snd first_title py_getitem]. rewrite Hty. cbn [exc_bind].
  rewrite String.eqb_refl. cbn [exc_bind].
  assert (truthy (JObj fields) = true) as -> by (by destruct fields).
  cbn [py_getitem]. rewrite Htitle. cbn [exc_bind]. by apply join_field_spans.
Qed.

Lemma title_is_first_title_property_witness :
  card_title
    (JObj ([("ORGA ID*", no_text)]
           ++ ("Name", JObj [("type", JStr "title");
                             ("title", JArr [JObj [("plain_text", JStr "Ac")];
                                             JObj [("plain_text", JStr "me")]])])
           :: [("Broken", JNull)]))
  = Val (foldr String.append "" ["Ac"; "me"]).
Proof.
  apply (title_is_first_title_property [("ORGA ID*", no_text)]
           [("Broken", JNull)] "Name" _ ["Ac"; "me"]).
  - repeat constructor. eexists _, _. split; [reflexivity|].
    split; [reflexivity|]. discriminate.
  - eexists _, _. split; [reflexivity|]. split; [reflexivity|].
    split; [reflexivity|]. repeat constructor; eexists; split; reflexivity.
Defined.

(** X4: when no property of the card has the ['type'] ['title'] (each having
    a ['type']), the title is the placeholder; when a property that comes
    before any title property is a dictionary without ['type'], the title
    raises [KeyError]. *)
Theorem title_placeholder_or_key_error
    (pre post : list (string * json)) (name : string)
    (fields : list (string * json)) :
  Forall other_property (map snd pre) →
  card_title (JObj pre) = Val "Title not found"
  ∧ (dict_lookup "type" fields = None →
     card_title (JObj (pre ++ (name, JObj fields) :: post)) = Err KeyError).
Proof.
  intros Hpre. split.
  - unfold card_title.
    rewrite <- (app_nil_r (map snd pre)), (first_title_skips _ _ Hpre). done.
  - intros Hty. unfold card_title.
    rewrite map_app, (first_title_skips _ _ Hpre). simpl. by rewrite Hty.
Qed.

Lemma title_placeholder_or_key_error_witness :
  card_title (JObj [("ORGA ID*", no_text)]) = Val "Title not found"
  ∧ card_title (JObj ([("ORGA ID*", no_text)] ++ ("Name", JObj []) :: []))
    = Err KeyError.
Proof.
  destruct (title_placeholder_or_key_error [("ORGA ID*", no_text)] [] "Name" [])
    as [H1 H2].
  - repeat constructor. eexists _, _. split; [reflexivity|].
    split; [reflexivity|]. discriminate.
  - split; [exact H1|]. apply H2. reflexivity.
Defined.

(** ** The last segment of a link *)

Lemma string_of_list_ascii_app (a b : list ascii) :
  string_of_list_ascii (a ++ b) = string_of_list_ascii a +:+ string_of_list_ascii b.
Proof. induction a as [|c a IH]; [done|]. simpl. by rewrite IH. Qed.

Lemma append_empty_r (s : string) : s +:+ "" = s.
Proof.
  induction s as [|c s IH]; [done|].
  change (String c s +:+ "") with (String c (s +:+ "")). by rewrite IH.
Qed.

(** Every text is a part that is empty or ends with a slash, then a part
    without slash. *)
Lemma last_slash_split (l : list ascii) :
  ∃ b seg,
    l = b ++ seg ∧ Forall (λ c, not_slash c = true) seg
    ∧ (b = [] ∨ ∃ b', b = b' ++ ["/"%char]).
Proof.
  induction l as [|c l (b & seg & -> & Hseg & Hb)].
  { exists [], []. by repeat split; [|left]. }
  destruct Hb as [->|(b' & ->)].
  - destruct (not_slash c) eqn:Hc.
    + exists [], (c :: seg). repeat split; [by constructor|by left].
    + exists [c], seg. repeat split; [done|]. right. exists [].
      unfold not_slash in Hc. apply negb_false_iff, Ascii.eqb_eq in Hc. by subst.
  - exists (c :: b' ++ ["/"%char]), seg. repeat split; [done|].
    right. by exists (c :: b').
Qed.

Lemma many_trailing_slash (s : list ascii) :
  ∀ prev, many not_slash (match_here [End_]) prev (s ++ ["/"%char]) = None.
Proof.
  induction s as [|c s IH]; intros prev; cbn [app many].
  - change (not_slash "/") with false. done.
  - rewrite IH. cbn [match_here]. rewrite at_end_long; [by destruct (not_slash c)|].
    by destruct s.
Qed.

Lemma search_trailing_slash (s : list ascii) :
  ∀ prev, search_from last_segment_pattern prev (s ++ ["/"%char]) = None.
Proof.
  induction s as [|c s IH]; intros prev; [done|].
  cbn [app search_from]. unfold last_segment_pattern at 1. cbn [match_here].
  rewrite many_trailing_slash, IH. by destruct (not_slash c).
Qed.

(** The search of the last-segment pattern, on a text split at its last
    slash. *)
Lemma search_last_segment (b seg : list ascii) (prev : option ascii) :
  Forall (λ c, not_slash c = true) seg →
  b = [] ∨ (∃ b', b = b' ++ ["/"%char]) →
  search_from last_segment_pattern prev (b ++ seg)
  = match seg with [] => None | _ :: _ => Some seg end.
Proof.
  intros Hseg [->|(b' & ->)].
  - destruct seg as [|c seg]; [done|]. cbn [app search_from].
    by rewrite last_segment_here.
  - destruct seg as [|c seg].
    + rewrite app_nil_r. apply search_trailing_slash.
    + rewrite <- (assoc (++)). by apply last_segment_search.
Qed.

(** X5: the pattern [([^/]+)$] that reads the identifier off a link finds
    exactly what follows the last slash of the text (all of it when there is
    no slash), and finds nothing exactly when the text is empty or ends with
    a slash. *)
Theorem last_segment_pattern_spec (text seg : string) :
  (re_search last_segment_pattern text = Some seg
   ↔ seg ≠ "" ∧ last_segment text seg)
  ∧ (re_search last_segment_pattern text = None
     ↔ text = "" ∨ ends_with_slash text).
Proof.
  unfold re_search.
  destruct (last_slash_split (list_ascii_of_string text)) as (b & l & Ht & Hl & Hb).
  assert (text = string_of_list_ascii b +:+ string_of_list_ascii l) as Htext.
  { by rewrite <- string_of_list_ascii_app, <- Ht, string_of_list_ascii_of_string. }
  assert (Hbase : string_of_list_ascii b = ""
                  ∨ ends_with_slash (string_of_list_ascii b)).
  { destruct Hb as [->|(b' & ->)]; [by left|right].
    exists (string_of_list_ascii b'). by rewrite string_of_list_ascii_app. }
  assert (Hconv : ∀ base s,
            Forall (λ c, not_slash c = true) (list_ascii_of_string s) →
            text = base +:+ s → base = "" ∨ ends_with_slash base →
            search_from last_segment_pattern None (list_ascii_of_string text)
            = match list_ascii_of_string s with
              | [] => None
              | _ :: _ => Some (list_ascii_of_string s)
              end).
  { intros base s Hs -> Hbs. rewrite list_ascii_of_string_app.
    apply search_last_segment; [done|].
    destruct Hbs as [->|(b0 & ->)]; [by left|right].
    exists (list_ascii_of_string b0). by rewrite list_ascii_of_string_app. }
  split; split.
  - rewrite Ht, (search_last_segment _ _ _ Hl Hb).
    destruct l as [|c l0] eqn:El; [done|]. rewrite <- El in *.
    cbn [fmap option_fmap option_map]. intros [= <-].
    split; [by rewrite El|].
    split; [by rewrite list_ascii_of_string_of_list_ascii|].
    by exists (string_of_list_ascii b).
  - intros (Hne & Hs & base & Hbase' & Hbs).
    rewrite (Hconv base seg Hs Hbase' Hbs).
    destruct (list_ascii_of_string seg) as [|c l'] eqn:E.
    + destruct seg; [done|discriminate].
    + rewrite <- E. cbn [fmap option_fmap option_map].
      by rewrite string_of_list_ascii_of_string.
  - rewrite Ht, (search_last_segment _ _ _ Hl Hb).
    destruct l as [|c l]; [|done]. intros _. simpl in Htext.
    rewrite append_empty_r in Htext.
    destruct Hbase as [Hb0|(base & Hb0)]; rewrite Hb0 in Htext;
      [by left|right; by exists base].
  - intros [->|(base & ->)]; [done|].
    rewrite list_ascii_of_string_app. simpl (list_ascii_of_string "/").
    by rewrite search_trailing_slash.
Qed.

(** ** The Processed-ID Set and the link *)

(** X6: the Processed-ID Set loaded from a table holds exactly the non-empty
    last segments of the links of its rows: what follows the last slash of a
    link; a row whose link is empty or ends with a slash adds nothing. *)
Theorem processed_ids_are_last_segments (rows : list CardInfo) (id : string) :
  id ∈ Ingestor.processed_of rows
  ↔ id ≠ "" ∧ ∃ row, row ∈ rows ∧ last_segment (Link row) id.
Proof.
  unfold Ingestor.processed_of.
  rewrite elem_of_list_to_set, list_elem_of_omap. split.
  - intros (row & Hrow & Hseg).
    apply (proj1 (last_segment_pattern_spec _ _)) in Hseg as [Hne Hlast].
    split; [done|]. by exists row.
  - intros (Hne & row & Hrow & Hlast). exists row. split; [done|].
    by apply (proj1 (last_segment_pattern_spec _ _)).
Qed.

(** X7: after a card is recorded and its record read back from the export
    file, the card's identifier is in the Processed-ID Set exactly when it
    has no hyphen: the link keeps the identifier without its hyphens. *)
Theorem recorded_id_is_processed_iff_no_hyphen (id title org_id : string) :
  remove_char "-" id ≠ "" →
  Forall (λ c, not_slash c = true) (list_ascii_of_string (remove_char "-" id)) →
  Ingestor.processed_of [record_of id title org_id] = {[ remove_char "-" id ]}
  ∧ (id ∈ Ingestor.processed_of [record_of id title org_id]
     ↔ "-"%char ∉ list_ascii_of_string id).
Proof.
  intros Hne Hslash. split; [by apply processed_of_record|].
  by apply hyphenated_id_not_processed.
Qed.

Lemma recorded_id_is_processed_iff_no_hyphen_witness :
  Ingestor.processed_of [record_of card_id "Acme" sample_id]
  = {[ remove_char "-" card_id ]}
  ∧ (card_id ∈ Ingestor.processed_of [record_of card_id "Acme" sample_id]
     ↔ "-"%char ∉ list_ascii_of_string card_id).
Proof.
  apply (recorded_id_is_processed_iff_no_hyphen card_id "Acme" sample_id).
  - discriminate.
  - vm_compute. repeat constructor.
Defined.

(** ** A card without identifier *)

(** X8: a card with an empty target field and no ['id'] makes the loop body
    raise [KeyError] before any request is sent and before the progress bar
    moves: in the write-back variant at once, in the read-only variant once
    the title is read. *)
Theorem card_without_id_raises_before_any_request {W} (host : Host W)
    (ids : gset string) (item : json) (fields : list (string * json))
    (properties : json) (title : string) (acc : list CardInfo) (e : Env W) :
  target_unset item →
  item = JObj fields →
  dict_lookup "id" fields = None →
  py_get item "properties" (JObj []) = Val properties →
  card_title properties = Val title →
  Ingestor.card_step host ids item acc e = Raise KeyError e
  ∧ DataExtractor.card_step host item acc e = Raise KeyError e.
Proof.
  intros (properties' & orga & Hp & Ho & Hf)%target_unset_not_filled
    -> Hid Hp' Htitle.
  rewrite Hp in Hp'. injection Hp' as ->. split.
  - unfold Ingestor.card_step.
    rewrite (bind_lift_Val _ _ _ _ Hp), (bind_lift_Val _ _ _ _ Ho),
      (bind_lift_Val _ _ _ _ Hf).
    cbn [py_getitem]. by rewrite Hid.
  - unfold DataExtractor.card_step.
    rewrite (bind_lift_Val _ _ _ _ Hp), (bind_lift_Val _ _ _ _ Ho),
      (bind_lift_Val _ _ _ _ Hf), (bind_lift_Val _ _ _ _ Htitle).
    cbn [py_getitem]. by rewrite Hid.
Qed.

Lemma card_without_id_raises_before_any_request_witness :
  Ingestor.card_step scripted_host ∅
    (JObj [("properties", JObj [("ORGA ID*", no_text)])]) []
    (start writing_run ∅)
  = Raise KeyError (start writing_run ∅)
  ∧ DataExtractor.card_step scripted_host
      (JObj [("properties", JObj [("ORGA ID*", no_text)])]) []
      (start writing_run ∅)
    = Raise KeyError (start writing_run ∅).
Proof.
  apply (card_without_id_raises_before_any_request scripted_host ∅ _
           [("properties", JObj [("ORGA ID*", no_text)])]
           (JObj [("ORGA ID*", no_text)]) "Title not found" []
           (start writing_run ∅)); try reflexivity.
  eexists _, _. split; [reflexivity|]. split; [reflexivity|].
  right. eexists. split; [reflexivity|]. right. reflexivity.
Defined.

(** ** The requests a computation sends *)

Lemma Trace_weaken {W A} (c : M W A) (T1 T2 : list Request → Prop) :
  Trace c T1 → (∀ l, T1 l → T2 l) → Trace c T2.
Proof.
  intros Hc HT e. specialize (Hc e).
  destruct (c e) as [a e'|x e'|]; [| |done];
    destruct Hc as (extra & ? & ?); eauto.
Qed.

Lemma Trace_ret {W A} (a : A) (T : list Request → Prop) :
  T [] → Trace (W := W) (ret a) T.
Proof. intros HT e. exists []. by rewrite app_nil_r. Qed.

Lemma Trace_lift {W A} (c : Exc A) (T : list Request → Prop) :
  T [] → Trace (W := W) (lift c) T.
Proof. intros HT e. destruct c; exists []; by rewrite app_nil_r. Qed.

Lemma Trace_silent {W A} (c : M W A) (T : list Request → Prop) :
  Silent c → T [] → Trace c T.
Proof.
  intros Hc HT e. destruct (Hc e) as (a & e' & -> & Hcalls).
  exists []. by rewrite app_nil_r.
Qed.

Lemma Trace_bind {W A B} (c : M W A) (k : A → M W B)
    (T1 T2 T : list Request → Prop) :
  Trace c T1 → (∀ a, Trace (k a) T2) →
  (∀ l, T1 l → T l) → (∀ l1 l2, T1 l1 → T2 l2 → T (l1 ++ l2)) →
  Trace (bind c k) T.
Proof.
  intros Hc Hk H1 H12 e. unfold bind. specialize (Hc e).
  destruct (c e) as [a e1|x e1|]; [|destruct Hc as (extra & ? & ?); eauto|done].
  destruct Hc as (extra1 & Hcalls1 & HT1). specialize (Hk a e1).
  destruct (k a e1) as [b e2|x e2|]; [| |done];
    destruct Hk as (extra2 & Hcalls2 & HT2); exists (extra1 ++ extra2);
    (split; [by rewrite Hcalls2, Hcalls1, (assoc (++))|]);
    rewrite map_app; auto.
Qed.

Lemma Trace_bind_lift {W A B} (c : Exc A) (k : A → M W B)
    (T : list Request → Prop) :
  T [] → (∀ a, c = Val a → Trace (k a) T) → Trace (bind (lift c) k) T.
Proof.
  intros HT Hk e. unfold bind, lift. destruct c as [a|x].
  - apply (Hk a eq_refl).
  - exists []. by rewrite app_nil_r.
Qed.

Lemma Trace_bind_silent {W A B} (c : M W A) (k : A → M W B)
    (T : list Request → Prop) :
  Silent c → (∀ a, Trace (k a) T) → Trace (bind c k) T.
Proof.
  intros Hc Hk e. unfold bind. destruct (Hc e) as (a & e1 & -> & Hcalls).
  specialize (Hk a e1). rewrite Hcalls in Hk. done.
Qed.

Lemma Trace_bind_ret {W A B} (a : A) (k : A → M W B) (T : list Request → Prop) :
  Trace (k a) T → Trace (bind (ret a) k) T.
Proof. intros H e. apply H. Qed.

Lemma Trace_assoc {W A B C} (c : M W A) (k1 : A → M W B) (k2 : B → M W C)
    (T : list Request → Prop) :
  Trace (bind c (λ a, bind (k1 a) k2)) T → Trace (bind (bind c k1) k2) T.
Proof.
  intros H e. specialize (H e). unfold bind in *. by destruct (c e).
Qed.

(** A request is sent, then the rest goes on with the response. *)
Lemma Trace_bind_request {W B} (host : Host W) (meth u : string)
    (payload : option json) (k : Response → M W B) (T : list Request → Prop) :
  (∀ rs, Trace (k rs)
           (λ l, T ({| method := meth; url := u; req_headers := headers host;
                       req_json := payload |} :: l))) →
  Trace (bind (request host meth u payload) k) T.
Proof.
  intros Hk e. unfold bind, request.
  destruct (send host _ (world e)) as [rs w'] eqn:Hsend.
  match goal with
  | |- match k rs ?e1 with _ => _ end => specialize (Hk rs e1); destruct (k rs e1)
  end; [| |done]; destruct Hk as (extra & Hcalls & HT); simpl in Hcalls;
    eexists (_ :: extra); (split; [by rewrite Hcalls, <- (assoc (++))|]); exact HT.
Qed.

Lemma Silent_print {W} (o : out) : Silent (W := W) (print o).
Proof. intros e. by eexists _, _. Qed.

Lemma Silent_bar_update {W} : Silent (W := W) bar_update.
Proof. intros e. by eexists _, _. Qed.

Lemma Silent_bar_describe {W} : Silent (W := W) bar_describe.
Proof. intros e. by eexists _, _. Qed.

Lemma Silent_bar_close {W} : Silent (W := W) bar_close.
Proof. intros e. by eexists _, _. Qed.

(** The bar is created, or [tqdm] raises; no request either way. *)
Lemma Trace_bind_tqdm {W B} (total : json) (desc : string) (k : unit → M W B)
    (T : list Request → Prop) :
  T [] → (∀ a, Trace (k a) T) → Trace (bind (tqdm total desc) k) T.
Proof.
  intros HT Hk e. unfold bind, tqdm.
  destruct (truthy total && negb (is_number total)).
  - exists []. by rewrite app_nil_r.
  - apply (Hk tt {| world := world e; calls := calls e; console := console e;
                    bar := {| bar_total := total; bar_n := 0;
                              bar_desc := DescText desc; bar_closed := false |};
                    files := files e |}).
Qed.

Lemma Silent_write_file {W} (path : string) (rows : list CardInfo) :
  Silent (W := W) (write_file path rows).
Proof. intros e. by eexists _, _. Qed.

Lemma Silent_read_file {W} (path : string) : Silent (W := W) (read_file path).
Proof. intros e. by eexists _, _. Qed.

Ltac silent_tac :=
  first [ apply Silent_print | apply Silent_bar_update | apply Silent_bar_describe
        | apply Silent_bar_close | apply Silent_write_file
        | apply Silent_read_file ].

Ltac trace_step :=
  lazymatch goal with
  | |- Trace (bind (lift _) _) _ => apply Trace_bind_lift; [|intros ? ?]
  | |- Trace (bind (ret _) _) _ => apply Trace_bind_ret
  | |- Trace (bind (request _ _ _ _) _) _ => apply Trace_bind_request; intros ?
  | |- Trace (bind (tqdm _ _) _) _ => apply Trace_bind_tqdm; [|intros ?]
  | |- Trace (bind (if ?b then _ else _) _) _ => destruct b eqn:?
  | |- Trace (bind (match ?x with _ => _ end) _) _ => destruct x eqn:?
  | |- Trace (bind (bind _ _) _) _ => apply Trace_assoc
  | |- Trace (bind _ _) _ => apply Trace_bind_silent; [silent_tac|intros ?]
  | |- Trace (if ?b then _ else _) _ => destruct b eqn:?
  | |- Trace (match ?x with _ => _ end) _ => destruct x eqn:?
  | |- Trace (ret _) _ => apply Trace_ret
  | |- Trace (lift _) _ => apply Trace_lift
  | |- Trace _ _ => apply Trace_silent; [silent_tac|]
  end.

Lemma Sends_bind {W A B} (c : M W A) (k : A → M W B) (P : Request → Prop) :
  Trace c (Forall P) → (∀ a, Trace (k a) (Forall P)) →
  Trace (bind c k) (Forall P).
Proof.
  intros Hc Hk. apply (Trace_bind c k (Forall P) (Forall P)); [done..|].
  intros l1 l2 H1 H2. by apply Forall_app.
Qed.

Lemma Sends_bind_request {W B} (host : Host W) (meth u : string)
    (payload : option json) (k : Response → M W B) (P : Request → Prop) :
  P {| method := meth; url := u; req_headers := headers host;
       req_json := payload |} →
  (∀ rs, Trace (k rs) (Forall P)) →
  Trace (bind (request host meth u payload) k) (Forall P).
Proof.
  intros HP Hk. apply Trace_bind_request. intros rs.
  eapply Trace_weaken; [apply Hk|]. intros l Hl. by constructor.
Qed.

Ltac sends_step :=
  lazymatch goal with
  | |- Trace (bind (request _ _ _ _) _) (Forall _) =>
      apply Sends_bind_request; [|intros ?]
  | |- _ => trace_step
  end.

Lemma found_Some (org_id : option string) (s : string) :
  found org_id = Some s → org_id = Some s.
Proof.
  destruct org_id as [t|]; [|done]. simpl.
  destruct (String.eqb t ""); [done|]. by intros [= ->].
Qed.

Lemma ingestor_extract_shape (blocks : json) (id : string) :
  Ingestor.extract_org_id_from_blocks blocks = Val (Some id) →
  uuid_shape (list_ascii_of_string id).
Proof.
  rewrite extract_org_id_agree. unfold DataExtractor.extract_org_id_from_blocks.
  destruct (py_get blocks "results" (JArr [])) as [results|]; [|done]. simpl.
  destruct (py_iter results) as [items|]; [|done]. simpl.
  apply scan_blocks_shape.
Qed.

Section Sends.
Context {W : Type} (host : Host W) (P : Request → Prop).
Hypothesis Plisting : ∀ payload, P (listing_request host payload).
Hypothesis Pblocks : ∀ page_id, P (blocks_request host page_id).

Lemma sends_get_database_items (cursor : json) :
  Trace (get_database_items host (DATABASE_ID host) cursor) (Forall P).
Proof.
  unfold get_database_items. repeat sends_step; try constructor.
  apply Plisting.
Qed.

Lemma sends_get_page_blocks (page_id : string) :
  Trace (get_page_blocks host page_id) (Forall P).
Proof.
  unfold get_page_blocks. repeat sends_step; try constructor.
  apply Pblocks.
Qed.

Lemma extractor_card_step_sends (item : json) (acc : list CardInfo) :
  Trace (DataExtractor.card_step host item acc) (Forall P).
Proof.
  unfold DataExtractor.card_step.
  repeat first
    [ apply Sends_bind; [apply sends_get_page_blocks|intros ?]
    | sends_step ]; constructor.
Qed.

Lemma extractor_card_loop_sends (items : list json) :
  ∀ acc, Trace (DataExtractor.card_loop host items acc) (Forall P).
Proof.
  induction items as [|item items IH]; intros acc; simpl.
  - apply Trace_ret. constructor.
  - apply Sends_bind; [apply extractor_card_step_sends|]. intros ?. apply IH.
Qed.

Lemma extractor_extract_card_info_sends (database_items : json) :
  Trace (DataExtractor.extract_card_info host database_items) (Forall P).
Proof.
  unfold DataExtractor.extract_card_info.
  repeat first
    [ apply extractor_card_loop_sends | sends_step ]; constructor.
Qed.

Lemma extractor_page_loop_sends (fuel : nat) :
  ∀ cursor acc, Trace (DataExtractor.page_loop host fuel cursor acc) (Forall P).
Proof.
  induction fuel as [|fuel IH]; intros cursor acc; [by intros e|].
  cbn [DataExtractor.page_loop].
  apply Sends_bind; [apply sends_get_database_items|]. intros db.
  assert (Trace
    (let* card_info_list := DataExtractor.extract_card_info host db in
     let* has_more := lift (py_get db "has_more" JNull) in
     if negb (truthy has_more) then ret (acc ++ card_info_list)
     else let* start_cursor := lift (py_get db "next_cursor" JNull) in
          DataExtractor.page_loop host fuel start_cursor (acc ++ card_info_list))
    (Forall P)) as Hcont.
  { apply Sends_bind; [apply extractor_extract_card_info_sends|]. intros l.
    repeat first [ apply IH | sends_step ]; constructor. }
  destruct db; [apply Trace_ret; constructor|exact Hcont..].
Qed.

Lemma extractor_export_sends (all : list CardInfo) :
  Trace (DataExtractor.export host all) (Forall P).
Proof.
  unfold DataExtractor.export. repeat sends_step; constructor.
Qed.

Lemma extractor_main_sends (fuel : nat) :
  Trace (DataExtractor.main host fuel) (Forall P).
Proof.
  unfold DataExtractor.main.
  apply Sends_bind; [apply sends_get_database_items|]. intros initial.
  assert (Trace
    (let* total_cards := lift (py_get initial "total" (JNum 0)) in
     let* _ := tqdm total_cards "Processing cards" in
     let* all_card_info := DataExtractor.page_loop host fuel JNull [] in
     let* _ := bar_close in
     DataExtractor.export host all_card_info) (Forall P)) as Hcont.
  { apply Trace_bind_lift; [constructor|]. intros total _.
    apply Trace_bind_tqdm; [constructor|]. intros _.
    apply Sends_bind; [apply extractor_page_loop_sends|]. intros all.
    apply Trace_bind_silent; [silent_tac|]. intros _.
    apply extractor_export_sends. }
  destruct initial; [apply Trace_silent; [silent_tac|constructor]|exact Hcont..].
Qed.

Hypothesis Preread : ∀ page_id, P (reread host page_id).
Hypothesis Pupdate :
  ∀ page_id orga_id,
    uuid_shape (list_ascii_of_string orga_id) →
    P (update_request host page_id orga_id).

Lemma sends_update_card_property (page_id orga_id : string) :
  uuid_shape (list_ascii_of_string orga_id) →
  Trace (Ingestor.update_card_property host page_id orga_id) (Forall P).
Proof.
  intros Hshape. unfold Ingestor.update_card_property.
  repeat sends_step; try constructor. by apply Pupdate.
Qed.

Lemma sends_verify_card_property (page_id expected : string) :
  Trace (Ingestor.verify_card_property host page_id expected) (Forall P).
Proof.
  unfold Ingestor.verify_card_property. repeat sends_step; try constructor.
  apply Preread.
Qed.

Lemma ingestor_card_step_sends (ids : gset string) (item : json)
    (acc : list CardInfo) :
  Trace (Ingestor.card_step host ids item acc) (Forall P).
Proof.
  unfold Ingestor.card_step.
  repeat first
    [ apply Sends_bind; [apply sends_get_page_blocks|intros ?]
    | lazymatch goal with
      | |- Trace (bind (bind (Ingestor.update_card_property _ _ _) _) _) _ =>
          apply Trace_assoc; apply Sends_bind;
          [apply sends_update_card_property|intros ?]
      end
    | apply Sends_bind; [apply sends_verify_card_property|intros ?]
    | sends_step ]; try constructor.
  all: match goal with
       | Hf : found ?o = Some ?s, He : Ingestor.extract_org_id_from_blocks _ = Val ?o
         |- _ => apply found_Some in Hf; subst o; by apply ingestor_extract_shape in He
       | Hf : found None = Some _ |- _ => discriminate Hf
       end.
Qed.

Lemma ingestor_card_loop_sends (ids : gset string) (items : list json) :
  ∀ acc, Trace (Ingestor.card_loop host ids items acc) (Forall P).
Proof.
  induction items as [|item items IH]; intros acc; simpl.
  - apply Trace_ret. constructor.
  - apply Sends_bind; [apply ingestor_card_step_sends|]. intros ?. apply IH.
Qed.

Lemma ingestor_extract_card_info_sends (ids : gset string) (database_items : json) :
  Trace (Ingestor.extract_card_info host database_items ids) (Forall P).
Proof.
  unfold Ingestor.extract_card_info.
  repeat first
    [ apply ingestor_card_loop_sends | sends_step ]; constructor.
Qed.

Lemma ingestor_page_loop_sends (ids : gset string) (fuel : nat) :
  ∀ cursor acc, Trace (Ingestor.page_loop host ids fuel cursor acc) (Forall P).
Proof.
  induction fuel as [|fuel IH]; intros cursor acc; [by intros e|].
  cbn [Ingestor.page_loop].
  apply Sends_bind; [apply sends_get_database_items|]. intros db.
  assert (Trace
    (let* card_info_list := Ingestor.extract_card_info host db ids in
     let* has_more := lift (py_get db "has_more" JNull) in
     if negb (truthy has_more) then ret (acc ++ card_info_list)
     else let* start_cursor := lift (py_get db "next_cursor" JNull) in
          Ingestor.page_loop host ids fuel start_cursor (acc ++ card_info_list))
    (Forall P)) as Hcont.
  { apply Sends_bind; [apply ingestor_extract_card_info_sends|]. intros l.
    repeat first [ apply IH | sends_step ]; constructor. }
  destruct db; [apply Trace_ret; constructor|exact Hcont..].
Qed.

Lemma ingestor_export_sends (all : list CardInfo) :
  Trace (Ingestor.export host all) (Forall P).
Proof.
  unfold Ingestor.export. repeat sends_step; constructor.
Qed.

Lemma ingestor_main_sends (fuel : nat) :
  Trace (Ingestor.main host fuel) (Forall P).
Proof.
  unfold Ingestor.main, Ingestor.load_processed.
  apply Trace_assoc. apply Trace_bind_silent; [silent_tac|]. intros existing.
  apply Sends_bind.
  { destruct existing; apply Trace_ret; constructor. }
  intros ids.
  apply Sends_bind; [apply sends_get_database_items|]. intros initial.
  assert (Trace
    (let* total_cards := lift (py_get initial "total" (JNum 0)) in
     let* _ := tqdm total_cards "Processing cards" in
     let* all_card_info := Ingestor.page_loop host ids fuel JNull [] in
     let* _ := bar_close in
     Ingestor.export host all_card_info) (Forall P)) as Hcont.
  { apply Trace_bind_lift; [constructor|]. intros total _.
    apply Trace_bind_tqdm; [constructor|]. intros _.
    apply Sends_bind; [apply ingestor_page_loop_sends|]. intros all.
    apply Trace_bind_silent; [silent_tac|]. intros _.
    apply ingestor_export_sends. }
  destruct initial; [apply Trace_silent; [silent_tac|constructor]|exact Hcont..].
Qed.
End Sends.

(** X9: whatever its outcome (a normal end or an exception), a run of the
    read-only variant only adds to the log of requests, and every request it
    sends is a listing request or the fetch of the blocks of a page, with the
    headers of the module: it never updates the remote database. *)
Theorem read_only_variant_only_reads {W} (host : Host W) (fuel : nat) (e : Env W) :
  match DataExtractor.main host fuel e with
  | Ok _ e' | Raise _ e' =>
      ∃ extra, calls e' = calls e ++ extra
               ∧ Forall (reading_request host) (map fst extra)
  | Diverge => True
  end.
Proof.
  apply (extractor_main_sends host (reading_request host)).
  - intros payload. left. by exists payload.
  - intros page_id. right. by exists page_id.
Qed.

(** X10: whatever its outcome, a run of the write-back variant sends only
    listing requests, fetches of blocks, re-reads of a page and updates; and
    every update sets the target field of a page to a single run of text that
    has the 8-4-4-4-12 shape of an identifier. *)
Theorem write_back_variant_writes_identifiers_only {W} (host : Host W)
    (fuel : nat) (e : Env W) :
  match Ingestor.main host fuel e with
  | Ok _ e' | Raise _ e' =>
      ∃ extra, calls e' = calls e ++ extra
               ∧ Forall (write_back_request host) (map fst extra)
  | Diverge => True
  end.
Proof.
  apply (ingestor_main_sends host (write_back_request host)).
  - intros payload. left. by exists payload.
  - intros page_id. right. left. by exists page_id.
  - intros page_id. right. right. left. by exists page_id.
  - intros page_id orga_id Hshape. right. right. right. by exists page_id, orga_id.
Qed.

Ltac card_requests_leaf :=
  solve
    [ by left
    | right; eexists; split; [eassumption|];
      first [ left; reflexivity
            | right; eexists; left; reflexivity
            | right; eexists; right; reflexivity ]
    | right; eexists; split; [eassumption|reflexivity] ].

(** X11: whatever the outcome of the loop body for one card, the read-only
    variant has sent nothing or the fetch of the card's blocks; the write-back
    variant has sent nothing, or the fetch of the card's blocks followed by at
    most one update and then at most one re-read of that card: a card is
    written at most once each time it is delivered, and read again only
    after it was written. *)
Theorem requests_sent_for_one_card {W} (host : Host W) (ids : gset string)
    (item : json) (acc : list CardInfo) :
  Trace (DataExtractor.card_step host item acc) (read_only_card_requests host item)
  ∧ Trace (Ingestor.card_step host ids item acc)
          (write_back_card_requests host item).
Proof.
  split.
  - unfold DataExtractor.card_step, get_page_blocks,
      read_only_card_requests.
    repeat trace_step; card_requests_leaf.
  - unfold Ingestor.card_step, get_page_blocks, Ingestor.update_card_property,
      Ingestor.verify_card_property, write_back_card_requests.
    repeat trace_step; card_requests_leaf.
Qed.

(** ** The listing requests of a run *)

Lemma get_database_items_request {W} (host : Host W) (cursor : json) :
  Trace (get_database_items host (DATABASE_ID host) cursor)
        (λ l, l = [listing_request host (listing_payload cursor)]).
Proof. unfold get_database_items. repeat trace_step; reflexivity. Qed.

Lemma extractor_page_rest_sends {W} (host : Host W) (fuel : nat) (db : json)
    (acc : list CardInfo) :
  Trace (match db with
         | JNull => ret acc
         | _ =>
             let* card_info_list := DataExtractor.extract_card_info host db in
             let all_card_info := acc ++ card_info_list in
             let* has_more := lift (py_get db "has_more" JNull) in
             if negb (truthy has_more) then ret all_card_info
             else
               let* start_cursor := lift (py_get db "next_cursor" JNull) in
               DataExtractor.page_loop host fuel start_cursor all_card_info
         end) (Forall (λ _, True)).
Proof.
  assert (Trace
    (let* card_info_list := DataExtractor.extract_card_info host db in
     let* has_more := lift (py_get db "has_more" JNull) in
     if negb (truthy has_more) then ret (acc ++ card_info_list)
     else let* start_cursor := lift (py_get db "next_cursor" JNull) in
          DataExtractor.page_loop host fuel start_cursor (acc ++ card_info_list))
    (Forall (λ _, True))) as Hcont.
  { apply Sends_bind; [by apply extractor_extract_card_info_sends|]. intros l.
    repeat first [ by apply extractor_page_loop_sends | sends_step ]; constructor. }
  destruct db; [apply Trace_ret; constructor|exact Hcont..].
Qed.

Lemma ingestor_page_rest_sends {W} (host : Host W) (ids : gset string)
    (fuel : nat) (db : json) (acc : list CardInfo) :
  Trace (match db with
         | JNull => ret acc
         | _ =>
             let* card_info_list := Ingestor.extract_card_info host db ids in
             let all_card_info := acc ++ card_info_list in
             let* has_more := lift (py_get db "has_more" JNull) in
             if negb (truthy has_more) then ret all_card_info
             else
               let* start_cursor := lift (py_get db "next_cursor" JNull) in
               Ingestor.page_loop host ids fuel start_cursor all_card_info
         end) (Forall (λ _, True)).
Proof.
  assert (Trace
    (let* card_info_list := Ingestor.extract_card_info host db ids in
     let* has_more := lift (py_get db "has_more" JNull) in
     if negb (truthy has_more) then ret (acc ++ card_info_list)
     else let* start_cursor := lift (py_get db "next_cursor" JNull) in
          Ingestor.page_loop host ids fuel start_cursor (acc ++ card_info_list))
    (Forall (λ _, True))) as Hcont.
  { apply Sends_bind; [by apply ingestor_extract_card_info_sends|]. intros l.
    repeat first [ by apply ingestor_page_loop_sends | sends_step ]; constructor. }
  destruct db; [apply Trace_ret; constructor|exact Hcont..].
Qed.

(** X12: whatever its outcome, a run of either variant, given fuel for one
    turn of its loop, begins with the cursor-less listing request and, unless
    it ends there (the listing failed or its answer is not a dictionary),
    sends the very same request again as its second request: the first page
    is fetched twice, once for the total and once to be processed. *)
Theorem first_page_is_requested_twice {W} (host : Host W) (fuel : nat) :
  Trace (DataExtractor.main host (S fuel)) (first_page_twice host)
  ∧ Trace (Ingestor.main host (S fuel)) (first_page_twice host).
Proof.
  assert (Hclose1 : ∀ l, l = [listing_request host (listing_payload JNull)] →
                         first_page_twice host l) by (intros l ->; by left).
  assert (Hclose2 : ∀ l1 l2,
            l1 = [listing_request host (listing_payload JNull)] →
            (l2 = [] ∨ ∃ rest, l2 = listing_request host (JObj []) :: rest) →
            first_page_twice host (l1 ++ l2)).
  { intros l1 l2 -> [->|(rest & ->)]; [by left|right; by exists rest]. }
  assert (Hloop1 : ∀ l, (∃ rest, l = listing_request host (JObj []) :: rest) →
            l = [] ∨ ∃ rest, l = listing_request host (JObj []) :: rest)
    by (intros l; by right).
  assert (Hloop2 : ∀ l1 l2 : list Request,
            (∃ rest, l1 = listing_request host (JObj []) :: rest) →
            Forall (λ _, True) l2 →
            (l1 ++ l2 = [] ∨ ∃ rest, l1 ++ l2 = listing_request host (JObj []) :: rest)).
  { intros l1 l2 (rest & ->) _. right. by exists (rest ++ l2). }
  assert (Hexp : ∀ all, Trace (bind (bar_close (W := W))
                                 (λ _, DataExtractor.export host all))
                              (Forall (λ _, True))).
  { intros all. unfold DataExtractor.export. repeat sends_step; constructor. }
  assert (Hexp' : ∀ all, Trace (bind (bar_close (W := W))
                                  (λ _, Ingestor.export host all))
                               (Forall (λ _, True))).
  { intros all. unfold Ingestor.export. repeat sends_step; constructor. }
  split.
  - unfold DataExtractor.main.
    eapply Trace_bind; [apply get_database_items_request| |exact Hclose1|exact Hclose2].
    intros initial.
    assert (Trace
      (let* total_cards := lift (py_get initial "total" (JNum 0)) in
       let* _ := tqdm total_cards "Processing cards" in
       let* all_card_info := DataExtractor.page_loop host (S fuel) JNull [] in
       let* _ := bar_close in
       DataExtractor.export host all_card_info)
      (λ l, l = [] ∨ ∃ rest, l = listing_request host (JObj []) :: rest)) as Hcont.
    { apply Trace_bind_lift; [by left|]. intros total _.
      apply Trace_bind_tqdm; [by left|]. intros _.
      eapply Trace_bind; [|intros all; apply Hexp|exact Hloop1|exact Hloop2].
      cbn [DataExtractor.page_loop].
      eapply Trace_bind;
        [apply get_database_items_request
        |intros db; apply extractor_page_rest_sends| |].
      + intros l ->. by eexists.
      + intros l1 l2 -> _. by eexists. }
    destruct initial; [apply Trace_silent; [silent_tac|by left]|exact Hcont..].
  - assert (Hmain : ∀ ids,
      Trace
        (let* initial_response :=
           get_database_items host (DATABASE_ID host) JNull in
         match initial_response with
         | JNull => print (Text "Error during initial Notion API request.")
         | _ =>
             let* total_cards := lift (py_get initial_response "total" (JNum 0)) in
             let* _ := tqdm total_cards "Processing cards" in
             let* all_card_info := Ingestor.page_loop host ids (S fuel) JNull [] in
             let* _ := bar_close in
             Ingestor.export host all_card_info
         end) (first_page_twice host)).
    { intros ids.
      eapply Trace_bind;
        [apply get_database_items_request| |exact Hclose1|exact Hclose2].
      intros initial.
      assert (Trace
        (let* total_cards := lift (py_get initial "total" (JNum 0)) in
         let* _ := tqdm total_cards "Processing cards" in
         let* all_card_info := Ingestor.page_loop host ids (S fuel) JNull [] in
         let* _ := bar_close in
         Ingestor.export host all_card_info)
        (λ l, l = [] ∨ ∃ rest, l = listing_request host (JObj []) :: rest))
        as Hcont.
      { apply Trace_bind_lift; [by left|]. intros total _.
        apply Trace_bind_tqdm; [by left|]. intros _.
        eapply Trace_bind; [|intros all; apply Hexp'|exact Hloop1|exact Hloop2].
        cbn [Ingestor.page_loop].
        eapply Trace_bind;
          [apply get_database_items_request
          |intros db; apply ingestor_page_rest_sends| |].
        + intros l ->. by eexists.
        + intros l1 l2 -> _. by eexists. }
      destruct initial; [apply Trace_silent; [silent_tac|by left]|exact Hcont..]. }
    unfold Ingestor.main, Ingestor.load_processed.
    apply Trace_assoc. apply Trace_bind_silent; [silent_tac|]. intros existing.
    destruct existing; apply Trace_bind_ret; apply Hmain.
Qed.

(** ** The progress bar over a run *)

Lemma extractor_extract_card_info_progress {W} (host : Host W) (db : json)
    (l : list CardInfo) (e e' : Env W) :
  DataExtractor.extract_card_info host db e = Ok l e' →
  bar_n (bar e') = bar_n (bar e)
                   + length (List.filter (λ i, negb (is_filled i)) (items_of db)).
Proof.
  unfold DataExtractor.extract_card_info, items_of. intros H.
  apply bind_Ok in H as (results & ? & [-> ->]%lift_Ok & H).
  apply bind_Ok in H as (items & ? & [-> ->]%lift_Ok & H).
  by apply extractor_loop_progress in H.
Qed.

Lemma ingestor_extract_card_info_progress {W} (host : Host W) (ids : gset string)
    (db : json) (l : list CardInfo) (e e' : Env W) :
  Ingestor.extract_card_info host db ids e = Ok l e' →
  bar_n (bar e') = bar_n (bar e)
                   + length (List.filter
                               (λ i, negb (is_filled i || is_processed ids i))
                               (items_of db)).
Proof.
  unfold Ingestor.extract_card_info, items_of. intros H.
  apply bind_Ok in H as (results & ? & [-> ->]%lift_Ok & H).
  apply bind_Ok in H as (items & ? & [-> ->]%lift_Ok & H).
  by apply ingestor_loop_progress in H.
Qed.

Lemma extractor_page_loop_progress {W} (host : Host W) (fuel : nat) :
  ∀ cursor acc (e : Env W) all e',
    DataExtractor.page_loop host fuel cursor acc e = Ok all e' →
    ∃ d, delivered (calls e') = delivered (calls e) ++ d
         ∧ bar_n (bar e') = bar_n (bar e)
                            + length (List.filter (λ i, negb (is_filled i)) d).
Proof.
  induction fuel as [|fuel IH]; intros cursor acc e all e' H; [done|].
  simpl in H. apply bind_Ok in H as (db & e1 & Hdb & H).
  pose proof (get_database_items_None _ _ _ _ _ Hdb) as [_ Hb1].
  apply get_database_items_Ok in Hdb as [_ Hd1].
  assert (Hcont :
    (let* l := DataExtractor.extract_card_info host db in
     let* has_more := lift (py_get db "has_more" JNull) in
     if negb (truthy has_more) then ret (acc ++ l)
     else let* next := lift (py_get db "next_cursor" JNull) in
          DataExtractor.page_loop host fuel next (acc ++ l)) e1 = Ok all e' →
    ∃ d, delivered (calls e') = delivered (calls e) ++ d
         ∧ bar_n (bar e') = bar_n (bar e)
                            + length (List.filter (λ i, negb (is_filled i)) d)).
  { clear H. intros H.
    apply bind_Ok in H as (l & e2 & Hl & H).
    pose proof (extractor_extract_card_info_progress _ _ _ _ _ Hl) as Hn2.
    apply extractor_extract_card_info_spec in Hl as [[_ Hd2] _].
    apply bind_Ok in H as (has_more & ? & [_ ->]%lift_Ok & H).
    destruct (negb (truthy has_more)).
    - injection H as <- <-. exists (items_of db).
      split; [congruence|]. rewrite Hn2. by rewrite Hb1.
    - apply bind_Ok in H as (next & ? & [_ ->]%lift_Ok & H).
      apply IH in H as (d & Hd3 & Hn3). exists (items_of db ++ d). split.
      + rewrite Hd3, Hd2, Hd1. by rewrite (assoc (++)).
      + rewrite List.filter_app, length_app, Hn3, Hn2, Hb1. lia. }
  destruct db; try (by apply Hcont).
  unfold ret in H. injection H as <- <-. exists []. split.
  - rewrite Hd1. reflexivity.
  - rewrite Hb1. simpl. lia.
Qed.

Lemma ingestor_page_loop_progress {W} (host : Host W) (ids : gset string)
    (fuel : nat) :
  ∀ cursor acc (e : Env W) all e',
    Ingestor.page_loop host ids fuel cursor acc e = Ok all e' →
    ∃ d, delivered (calls e') = delivered (calls e) ++ d
         ∧ bar_n (bar e') = bar_n (bar e)
             + length (List.filter
                         (λ i, negb (is_filled i || is_processed ids i)) d).
Proof.
  induction fuel as [|fuel IH]; intros cursor acc e all e' H; [done|].
  simpl in H. apply bind_Ok in H as (db & e1 & Hdb & H).
  pose proof (get_database_items_None _ _ _ _ _ Hdb) as [_ Hb1].
  apply get_database_items_Ok in Hdb as [_ Hd1].
  assert (Hcont :
    (let* l := Ingestor.extract_card_info host db ids in
     let* has_more := lift (py_get db "has_more" JNull) in
     if negb (truthy has_more) then ret (acc ++ l)
     else let* next := lift (py_get db "next_cursor" JNull) in
          Ingestor.page_loop host ids fuel next (acc ++ l)) e1 = Ok all e' →
    ∃ d, delivered (calls e') = delivered (calls e) ++ d
         ∧ bar_n (bar e') = bar_n (bar e)
             + length (List.filter
                         (λ i, negb (is_filled i || is_processed ids i)) d)).
  { clear H. intros H.
    apply bind_Ok in H as (l & e2 & Hl & H).
    pose proof (ingestor_extract_card_info_progress _ _ _ _ _ _ Hl) as Hn2.
    apply ingestor_extract_card_info_spec in Hl as [[_ Hd2] _].
    apply bind_Ok in H as (has_more & ? & [_ ->]%lift_Ok & H).
    destruct (negb (truthy has_more)).
    - injection H as <- <-. exists (items_of db).
      split; [congruence|]. rewrite Hn2. by rewrite Hb1.
    - apply bind_Ok in H as (next & ? & [_ ->]%lift_Ok & H).
      apply IH in H as (d & Hd3 & Hn3). exists (items_of db ++ d). split.
      + rewrite Hd3, Hd2, Hd1. by rewrite (assoc (++)).
      + rewrite List.filter_app, length_app, Hn3, Hn2, Hb1. lia. }
  destruct db; try (by apply Hcont).
  unfold ret in H. injection H as <- <-. exists []. split.
  - rewrite Hd1. reflexivity.
  - rewrite Hb1. simpl. lia.
Qed.

(** X13: when the pagination loop returns, the progress bar has advanced by
    the number of delivered cards that were not skipped: in the read-only
    variant the cards whose target field is not set, in the write-back
    variant those that moreover are not in the Processed-ID Set. *)
Theorem progress_counts_cards_not_skipped {W} (host : Host W)
    (ids : gset string) (fuel : nat) (cursor : json) (acc all : list CardInfo)
    (e e' : Env W) :
  (DataExtractor.page_loop host fuel cursor acc e = Ok all e' →
   ∃ d, delivered (calls e') = delivered (calls e) ++ d
        ∧ bar_n (bar e') = bar_n (bar e)
                           + length (List.filter (λ i, negb (is_filled i)) d))
  ∧ (Ingestor.page_loop host ids fuel cursor acc e = Ok all e' →
     ∃ d, delivered (calls e') = delivered (calls e) ++ d
          ∧ bar_n (bar e') = bar_n (bar e)
              + length (List.filter
                          (λ i, negb (is_filled i || is_processed ids i)) d)).
Proof.
  split; [apply extractor_page_loop_progress|apply ingestor_page_loop_progress].
Qed.

Lemma progress_counts_cards_not_skipped_witness :
  ∃ all e',
    Ingestor.page_loop scripted_host (processed_at scripted_host
                                        (start mixed_run earlier_export))
      2 JNull [] (start (drop 1 mixed_run) earlier_export) = Ok all e'
    ∧ ∃ d,
        delivered (calls e')
        = delivered (calls (start (drop 1 mixed_run) earlier_export)) ++ d
        ∧ bar_n (bar e')
          = bar_n (bar (start (drop 1 mixed_run) earlier_export))
            + length (List.filter
                        (λ i, negb (is_filled i
                                    || is_processed
                                         (processed_at scripted_host
                                            (start mixed_run earlier_export)) i))
                        d).
Proof.
  eexists _, _. split; [vm_compute; reflexivity|].
  eapply (proj2 (progress_counts_cards_not_skipped scripted_host _ 2 JNull [] _
                   (start (drop 1 mixed_run) earlier_export) _)).
  vm_compute. reflexivity.
Defined.

(** ** One card in the read-only variant *)

Lemma extractor_extract_shape (blocks : json) (id : string) :
  DataExtractor.extract_org_id_from_blocks blocks = Val (Some id) →
  found (Some id) = Some id.
Proof.
  rewrite <- extract_org_id_agree. intros H%ingestor_extract_shape.
  apply uuid_shape_length in H. simpl. by destruct id.
Qed.

(** X14: in the read-only variant a card with an empty target field whose
    blocks are fetched gets one record when the extractor finds an
    identifier in them, made of the link (the identifier of the card without
    hyphens), the title, the identifier found and the source ['Corpus'], and
    no record otherwise; either way the bar advances by one and nothing else
    changes after the fetch. *)
Theorem read_only_card_outcome {W} (host : Host W) (item : json)
    (page_id title : string) (blocks : json) (org_id : option string)
    (acc : list CardInfo) (e e1 : Env W) :
  target_unset item →
  card_has_id item page_id →
  (∃ properties,
     py_get item "properties" (JObj []) = Val properties
     ∧ card_title properties = Val title) →
  get_page_blocks host page_id e = Ok blocks e1 →
  truthy blocks = true →
  DataExtractor.extract_org_id_from_blocks blocks = Val org_id →
  DataExtractor.card_step host item acc e
  = Ok (acc ++ match org_id with
               | Some found_id => [record_of page_id title found_id]
               | None => []
               end)
       {| world := world e1; calls := calls e1; console := console e1;
          bar := {| bar_total := bar_total (bar e1); bar_n := bar_n (bar e1) + 1;
                    bar_desc := bar_desc (bar e1);
                    bar_closed := bar_closed (bar e1) |};
          files := files e1 |}.
Proof.
  intros (properties & orga & Hp & Ho & Hf)%target_unset_not_filled
    (fields & -> & Hid) (properties' & Hp' & Htitle) Hblocks Htruthy Hext.
  rewrite Hp in Hp'. injection Hp' as <-.
  unfold DataExtractor.card_step.
  rewrite (bind_lift_Val _ _ _ _ Hp), (bind_lift_Val _ _ _ _ Ho),
    (bind_lift_Val _ _ _ _ Hf), (bind_lift_Val _ _ _ _ Htitle).
  cbn [py_getitem]. rewrite Hid. unfold bind at 1. rewrite lift_Val.
  unfold bind at 1. rewrite Hblocks, Htruthy.
  rewrite (bind_lift_Val _ _ _ _ Hext).
  destruct org_id as [found_id|].
  - rewrite (extractor_extract_shape _ _ Hext). reflexivity.
  - cbn [found]. unfold bind, ret, bar_update, get_bar, set_bar. cbn.
    by rewrite app_nil_r.
Qed.

Lemma read_only_card_outcome_witness :
  ∃ e',
    DataExtractor.card_step scripted_host (card card_id "Acme" no_text) []
      (start [ok (blocks_with
                    ["see ref a1b2c3d4-e5f6-7890-abcd-ef1234567890 for details"])]
             ∅)
    = Ok ([] ++ [record_of card_id "Acme" sample_id]) e'.
Proof.
  eexists.
  eapply (read_only_card_outcome scripted_host (card card_id "Acme" no_text)
            card_id "Acme" _ (Some sample_id) [] _ _).
  - eexists _, _. split; [reflexivity|]. split; [reflexivity|].
    right. eexists. split; [reflexivity|]. right. reflexivity.
  - eexists. split; reflexivity.
  - eexists. split; reflexivity.
  - vm_compute. reflexivity.
  - reflexivity.
  - vm_compute. reflexivity.
Defined.

(** ** A failed fetch of blocks *)

(** X15: when the fetch of a card's blocks is answered with a status other
    than 200, either variant prints the status and then decodes the body to
    print it.  With a JSON body it sends nothing more for the card (no
    update), adds no record, advances the bar by one and goes on to the next
    card.  With a body that is not JSON the decoding raises
    [JSONDecodeError], which nothing catches: the status line is printed,
    nothing more is sent, the bar has not moved and no record is added. *)
Theorem failed_blocks_fetch_skips_card_or_raises {W} (host : Host W)
    (ids : gset string) (item : json) (page_id title : string)
    (rs : Response) (w' : W) (acc : list CardInfo) (e : Env W) :
  target_unset item →
  card_has_id item page_id →
  page_id ∉ ids →
  (∃ properties,
     py_get item "properties" (JObj []) = Val properties
     ∧ card_title properties = Val title) →
  send host (blocks_request host page_id) (world e) = (rs, w') →
  status_code rs ≠ 200%Z →
  let log := calls e ++ [(blocks_request host page_id, rs)] in
  let status_line :=
    Text ("Error during API request to Notion: " +:+ str_Z (status_code rs)) in
  (∀ error_body,
     body rs = Some error_body →
     DataExtractor.card_step host item acc e
     = Ok acc {| world := w'; calls := log;
                 console := console e ++ [status_line; Repr error_body];
                 bar := {| bar_total := bar_total (bar e);
                           bar_n := bar_n (bar e) + 1;
                           bar_desc := bar_desc (bar e);
                           bar_closed := bar_closed (bar e) |};
                 files := files e |}
     ∧ Ingestor.card_step host ids item acc e
       = Ok acc {| world := w'; calls := log;
                   console := console e ++ [status_line; Repr error_body];
                   bar := {| bar_total := bar_total (bar e);
                             bar_n := bar_n (bar e) + 1;
                             bar_desc := DescRatio (bar_n (bar e) + 1)
                                                   (bar_total (bar e));
                             bar_closed := bar_closed (bar e) |};
                   files := files e |})
  ∧ (body rs = None →
     DataExtractor.card_step host item acc e
     = Raise JSONDecodeError
         {| world := w'; calls := log; console := console e ++ [status_line];
            bar := bar e; files := files e |}
     ∧ Ingestor.card_step host ids item acc e
       = Raise JSONDecodeError
           {| world := w'; calls := log; console := console e ++ [status_line];
              bar := bar e; files := files e |}).
Proof.
  intros (properties & orga & Hp & Ho & Hf)%target_unset_not_filled
    (fields & -> & Hid) Hnot (properties' & Hp' & Htitle) Hsend Hstatus
    log status_line.
  rewrite Hp in Hp'. injection Hp' as <-.
  assert (DataExtractor.card_step host (JObj fields) acc e
          = (let* blocks := get_page_blocks host page_id in
             let* org_id :=
               if truthy blocks
               then lift (DataExtractor.extract_org_id_from_blocks blocks)
               else ret None in
             let* card_info_list :=
               match found org_id with
               | Some org_id => ret (acc ++ [record_of page_id title org_id])
               | None => ret acc
               end in
             let* _ := bar_update in
             ret card_info_list) e) as ->.
  { unfold DataExtractor.card_step.
    rewrite (bind_lift_Val _ _ _ _ Hp), (bind_lift_Val _ _ _ _ Ho),
      (bind_lift_Val _ _ _ _ Hf), (bind_lift_Val _ _ _ _ Htitle).
    cbn [py_getitem]. rewrite Hid. unfold bind at 1. rewrite lift_Val.
    reflexivity. }
  assert (∃ k : json → M W (list CardInfo),
            Ingestor.card_step host ids (JObj fields) acc e
            = bind (get_page_blocks host page_id) k e
            ∧ ∀ e1, k JNull e1
                    = (let* _ := bar_update in
                       let* _ := bar_describe in
                       ret acc) e1) as (k & -> & Hk).
  { eexists. split.
    - unfold Ingestor.card_step.
      rewrite (bind_lift_Val _ _ _ _ Hp), (bind_lift_Val _ _ _ _ Ho),
        (bind_lift_Val _ _ _ _ Hf).
      cbn [py_getitem]. rewrite Hid. unfold bind at 1. rewrite lift_Val.
      unfold bind at 1. cbn [Ingestor.py_in_set]. rewrite lift_Val.
      rewrite bool_decide_eq_false_2 by done.
      rewrite (bind_lift_Val _ _ _ _ Htitle). reflexivity.
    - intros e1. reflexivity. }
  split.
  - intros error_body Hbody.
    assert (get_page_blocks host page_id e
            = Ok JNull {| world := w'; calls := log;
                          console := console e ++ [status_line; Repr error_body];
                          bar := bar e; files := files e |}) as Hblocks.
    { unfold get_page_blocks, bind, request, lift, resp_json.
      fold (blocks_request host page_id). rewrite Hsend, Hbody.
      destruct (Z.eqb_spec (status_code rs) 200) as [Heq|_]; [done|].
      cbn. by rewrite <- (assoc (++)). }
    split.
    + unfold bind at 1. rewrite Hblocks. reflexivity.
    + unfold bind at 1. rewrite Hblocks, Hk. reflexivity.
  - intros Hbody.
    assert (get_page_blocks host page_id e
            = Raise JSONDecodeError
                {| world := w'; calls := log;
                   console := console e ++ [status_line];
                   bar := bar e; files := files e |}) as Hblocks.
    { unfold get_page_blocks, bind, request, lift, resp_json.
      fold (blocks_request host page_id). rewrite Hsend, Hbody.
      destruct (Z.eqb_spec (status_code rs) 200) as [Heq|_]; [done|].
      reflexivity. }
    split; unfold bind at 1; by rewrite Hblocks.
Qed.

Lemma failed_blocks_fetch_skips_card_or_raises_witness :
  (∃ e',
     DataExtractor.card_step scripted_host (card card_id "Acme" no_text) []
       (start [{| status_code := 404; body := Some (JObj []) |}] ∅)
     = Ok [] e'
     ∧ bar_n (bar e') = 1 ∧ length (calls e') = 1)
  ∧ (∃ e',
       Ingestor.card_step scripted_host ∅ (card card_id "Acme" no_text) []
         (start [{| status_code := 502; body := None |}] ∅)
       = Raise JSONDecodeError e'
       ∧ bar_n (bar e') = 0 ∧ length (calls e') = 1).
Proof.
  split.
  - eexists. split; [|split].
    + eapply (proj1 (failed_blocks_fetch_skips_card_or_raises scripted_host ∅
                (card card_id "Acme" no_text) card_id "Acme"
                {| status_code := 404; body := Some (JObj []) |} [] []
                (start [{| status_code := 404; body := Some (JObj []) |}] ∅)
                _ _ _ _ eq_refl _)).
      reflexivity.
    + reflexivity.
    + reflexivity.
  - eexists. split; [|split].
    + eapply (proj2 (failed_blocks_fetch_skips_card_or_raises scripted_host ∅
                (card card_id "Acme" no_text) card_id "Acme"
                {| status_code := 502; body := None |} [] []
                (start [{| status_code := 502; body := None |}] ∅)
                _ _ _ _ eq_refl _)).
      reflexivity.
    + reflexivity.
    + reflexivity.
  Unshelve.
  all: try (eexists _, _; split; [reflexivity|]; split; [reflexivity|];
            right; eexists; split; [reflexivity|]; right; reflexivity).
  all: try (eexists; split; reflexivity).
  all: try apply not_elem_of_empty.
  all: try discriminate.
Defined.
